(** * homebridge-dingz: discovery, registration and callback handling

    A shallow embedding of the platform class [DingzDaHomebridgePlatform]
    (platform source, the event bus declaration and the type tables) and
    the properties its specification states about it.

    JavaScript objects that the platform mutates ([this.accessories],
    [this.discovered]) are finite maps held in an explicit platform state;
    every observable side effect (logging, constructing an accessory
    handler, publishing on the event bus, sending or answering an HTTP
    request, handing an operation to the retry policy) is appended to a
    trace, in program order.  Exceptions are the [Throw] completion of a small
    state-and-exception monad. *)

From Stdlib Require Import ZArith NArith String Ascii List Bool Lia.
From stdpp Require Import base option gmap strings list.

Local Open Scope string_scope.
Local Open Scope Z_scope.

(** ** Values shared by the whole platform *)

(** The [type] field of an info response: a string, a number, or missing. *)
Inductive TypeField : Type :=
| TNum (n : Z)
| TStr (s : string)
| TUndefined.

(** JavaScript [a !== b] on such values: no coercion between kinds. *)
Definition strict_ne (a b : TypeField) : bool :=
  match a, b with
  | TNum x, TNum y => negb (x =? y)
  | TStr x, TStr y => negb (String.eqb x y)
  | TUndefined, TUndefined => false
  | _, _ => true
  end.

(** The error classes of [util/errors] together with the two failures that
    come from outside the platform: the [TypeError] of the JavaScript
    runtime and the breaker's [BrokenCircuitError].  The message of an
    [InvalidTypeError] is kept as its interpolated parts: device name,
    address and the observed type. *)
Inductive Error : Type :=
| InvalidTypeError (name address : string) (observed : TypeField)
| DeviceNotImplementedError (message : string)
| DeviceNotReachableError (name address : string)
| TypeError (message : string)
| BrokenCircuitError.

Inductive Completion (A : Type) : Type :=
| Return (a : A)
| Throw (e : Error).
Arguments Return {A} a.
Arguments Throw {A} e.

Inductive AccessoryClass : Type :=
| DingzDaAccessory
| MyStromSwitchAccessory
| MyStromLightbulbAccessory.

Record DingzDeviceInfo : Type := {
  dz_type : TypeField;
  puck_hw_model : option string;
}.

Record MyStromDeviceInfo : Type := {
  ms_mac : string;
  ms_type : TypeField;
  ms_name : option string;
}.

Inductive HwInfo : Type :=
| HwDingz (i : DingzDeviceInfo)
| HwMyStrom (i : MyStromDeviceInfo).

Record DeviceInfo : Type := {
  di_name : string;
  di_address : string;
  di_mac : string;
  di_token : option string;
  di_model : string;
  di_hwInfo : HwInfo;
  di_accessoryClass : AccessoryClass;
}.

(** [new this.api.platformAccessory(name, uuid)] with its [context.device]. *)
Record PlatformAccessory : Type := {
  displayName : string;
  UUID : string;
  context_device : DeviceInfo;
}.

(** An accessory handler object ([new DingzDaAccessory(this, accessory)] and
    its two siblings): the class that was instantiated and the accessory it
    wraps. *)
Record Handle : Type := {
  handle_class : AccessoryClass;
  handle_accessory : PlatformAccessory;
}.

Record RemoteInfo : Type := {
  ri_address : string;
  ri_port : Z;
}.

(** The enum [DingzEvent] as [part_001] uses it. *)
Inductive DingzEvent : Type :=
| UPDATE_INFO
| BTN_PRESS
| STATE_UPDATE.

(** Positional arguments of an [emit] call. *)
Inductive Arg : Type :=
| AStr (s : string)
| AHandle (h : Handle).

Inductive LogLevel : Type := Debug | Info | Warn | LogError.

(** The three registration entry points and the arguments they are called
    with. *)
Inductive EntryPoint : Type :=
| AddDingzDevice
| AddMyStromSwitchDevice
| AddMyStromLightbulbDevice.

Record Candidate : Type := {
  c_entry : EntryPoint;
  c_address : string;
  c_name : string;
  c_token : option string;
}.

(** Observable effects, in the order the program performs them.  A log line
    is recorded with its fixed text; the values interpolated into it are
    left out. *)
Inductive Effect : Type :=
| Log (level : LogLevel) (message : string)
| Construct (h : Handle)
| RegisterPlatformAccessories (a : PlatformAccessory)
| Emit (event : DingzEvent) (args : list Arg)
| Identify (h : Handle)
| Execute (c : Candidate)
| HttpRequest (url : string) (tokenHeader : string)
| WriteHead (status : Z)
| EndResponse.

Record Platform : Type := {
  globalToken : option string;
  accessories : gmap string Handle;
  discovered : gmap string RemoteInfo;
  trace : list Effect;
}.

(** ** The monad of platform methods *)

Definition M (A : Type) : Type := Platform -> Completion A * Platform.

Definition ret {A} (a : A) : M A := fun p => (Return a, p).

Definition throw {A} (e : Error) : M A := fun p => (Throw e, p).

Definition bind {A B} (m : M A) (k : A -> M B) : M B :=
  fun p =>
    match m p with
    | (Return a, p') => k a p'
    | (Throw e, p') => (Throw e, p')
    end.

(** [try { body } catch (e) { handler e }] *)
Definition try_catch {A} (body : M A) (handler : Error -> M A) : M A :=
  fun p =>
    match body p with
    | (Return a, p') => (Return a, p')
    | (Throw e, p') => handler e p'
    end.

Declare Scope platform_scope.
Delimit Scope platform_scope with platform.
Notation "x <- m ;; k" := (bind m (fun x => k))
  (at level 100, m at level 99, right associativity) : platform_scope.
Notation "m ;; k" := (bind m (fun _ => k))
  (at level 100, right associativity) : platform_scope.
Local Open Scope platform_scope.

Definition effect (e : Effect) : M unit :=
  fun p =>
    (Return tt,
     {| globalToken := globalToken p;
        accessories := accessories p;
        discovered := discovered p;
        trace := trace p ++ [e] |}).

Definition get_accessories : M (gmap string Handle) :=
  fun p => (Return (accessories p), p).

Definition get_discovered : M (gmap string RemoteInfo) :=
  fun p => (Return (discovered p), p).

Definition get_globalToken : M (option string) :=
  fun p => (Return (globalToken p), p).

(** [this.accessories[uuid] = h] *)
Definition set_accessory (uuid : string) (h : Handle) : M unit :=
  fun p =>
    (Return tt,
     {| globalToken := globalToken p;
        accessories := <[uuid := h]> (accessories p);
        discovered := discovered p;
        trace := trace p |}).

(** [this.discovered.set(mac, remoteInfo)] *)
Definition set_discovered (key : string) (r : RemoteInfo) : M unit :=
  fun p =>
    (Return tt,
     {| globalToken := globalToken p;
        accessories := accessories p;
        discovered := <[key := r]> (discovered p);
        trace := trace p |}).

(** ** Strings *)

(** [String.prototype.toUpperCase] on the ASCII range; other bytes are kept
    as they are. *)
Definition upper_ascii (c : ascii) : ascii :=
  let n := nat_of_ascii c in
  if (andb (97 <=? n)%nat (n <=? 122)%nat) then ascii_of_nat (n - 32) else c.

Fixpoint toUpperCase (s : string) : string :=
  match s with
  | EmptyString => EmptyString
  | String c r => String (upper_ascii c) (toUpperCase r)
  end.

Definition hex_digit (d : N) : ascii :=
  match d with
  | 0 => "0" | 1 => "1" | 2 => "2" | 3 => "3" | 4 => "4" | 5 => "5"
  | 6 => "6" | 7 => "7" | 8 => "8" | 9 => "9" | 10 => "a" | 11 => "b"
  | 12 => "c" | 13 => "d" | 14 => "e" | _ => "f"
  end%N%char.

Fixpoint toString16_digits (fuel : nat) (n : N) (acc : string) : string :=
  match fuel with
  | O => acc
  | S fuel' =>
      let acc' := String (hex_digit (n mod 16)) acc in
      if (n / 16 =? 0)%N then acc' else toString16_digits fuel' (n / 16) acc'
  end.

(** [n.toString(16)] for a non-negative integer: lowercase, no padding. *)
Definition toString16 (n : N) : string :=
  toString16_digits (S (N.to_nat (N.log2 n))) n "".

(** [uint8arr.subarray(begin, end)] for indices inside the array: the
    elements from [begin] up to, but not including, [end]. *)
Definition subarray (begin_ end_ : nat) (a : list Z) : list Z :=
  firstn (end_ - begin_) (skipn begin_ a).

(** The loop body of [byteToHexString]. *)
Definition byte_hex (b : Z) : string :=
  let hex := toString16 (Z.to_N (Z.land b 255)) in
  if (String.length hex =? 1)%nat then "0" ++ hex else hex.

Fixpoint hex_loop (bytes : list Z) (hexStr : string) : string :=
  match bytes with
  | [] => hexStr
  | b :: rest => hex_loop rest (hexStr ++ byte_hex b)
  end.

(** [byteToHexString] on an array; its guard [if (!uint8arr) return '']
    only answers a missing argument, and an array is never falsy. *)
Definition byteToHexString (uint8arr : list Z) : string :=
  toUpperCase (hex_loop uint8arr "").

(** ** Promises

    A promise that is still pending is the computation that will run when
    the awaited input (here: the outcome of the HTTP round trip) arrives.
    Its completion is the settlement: [Return] fulfils, [Throw] rejects. *)

Record Promise (I A : Type) : Type := { settle : I -> M A }.
Arguments settle {I A} p i.

(** [p.then(f)]: [f] runs on fulfilment, a rejection is passed on. *)
Definition then_ {I A B} (p : Promise I A) (f : A -> M B) : Promise I B :=
  {| settle := fun i => (a <- settle p i ;; f a) |}.

(** [ToBoolean] of a promise: it is an object, and every object is truthy. *)
Definition ToBoolean {I A} (p : Promise I A) : bool := true.

(** [fetch] with [returnBody: true].  The request is sent when [fetch] is
    called; the promise is fulfilled with the body, or, after the [catch]
    has logged a transport error, with [undefined]. *)
Definition fetch {B} (url : string) (token : option string)
  : M (Promise (option B) (option B)) :=
  effect (HttpRequest url (default "" token)) ;;
  ret {| settle := fun response =>
           match response with
           | Some body => ret (Some body)
           | None => (effect (Log LogError "Error:") ;; ret None)
           end |}.

(** [DingzDevices]: an object keyed by MAC, in key order. *)
Definition DingzDevices : Type := list (string * DingzDeviceInfo).

Definition getDingzDeviceInfo (address : string) (token : option string)
  : M (Promise (option DingzDevices) (option DingzDevices)) :=
  fetch ("http://" ++ address ++ "/api/v1/device") token.

Definition getMyStromDeviceInfo (address : string) (token : option string)
    (endpoint : option string)
  : M (Promise (option MyStromDeviceInfo) (option MyStromDeviceInfo)) :=
  fetch ("http://" ++ address ++ "/" ++ default "api/v1/info" endpoint) token.

(** The table [MYSTROM_SWITCH_TYPES], indexed the way JavaScript indexes an
    object: a number is first turned into its decimal string. *)
Definition MYSTROM_SWITCH_TYPES (key : TypeField) : option string :=
  match key with
  | TStr "WS2" | TStr "106" | TNum 106 => Some "CH v2"
  | TStr "WSEU" | TStr "107" | TNum 107 => Some "EU"
  | _ => None
  end.

(** ** Registration entry points *)

Section Registration.

(** [this.api.hap.uuid.generate]: the bridge's identity derivation.  Its
    results are UUID strings; none of them names a property an empty object
    inherits, so [this.accessories[uuid]] is a lookup in the map. *)
Variable generate : string -> string.

(** The callback [addDingzDevice] passes to [then]. *)
Definition addDingzDevice_then (address name : string) (token : option string)
    (data : option DingzDevices) : M (option bool) :=
  effect (Log Debug "Got Device ->") ;;
  match data with
  | None => ret None
  | Some dingzDevices =>
      match dingzDevices with
      | [] => throw (TypeError "Cannot read property 'type' of undefined")
      | (mac, info) :: _ =>
          if strict_ne (dz_type info) (TStr "dingz")
          then throw (InvalidTypeError name address (dz_type info))
          else
            let deviceInfo :=
              {| di_name := name;
                 di_address := address;
                 di_mac := toUpperCase mac;
                 di_token := token;
                 di_model := default "DingZ" (puck_hw_model info);
                 di_hwInfo := HwDingz info;
                 di_accessoryClass := DingzDaAccessory |} in
            let uuid := generate (di_mac deviceInfo) in
            registry <- get_accessories ;;
            match registry !! uuid with
            | None =>
                effect (Log Info "Registering new accessory:") ;;
                let accessory :=
                  {| displayName := di_name deviceInfo;
                     UUID := uuid;
                     context_device := deviceInfo |} in
                let dingzDaAccessory :=
                  {| handle_class := DingzDaAccessory;
                     handle_accessory := accessory |} in
                effect (Construct dingzDaAccessory) ;;
                effect (RegisterPlatformAccessories accessory) ;;
                set_accessory uuid dingzDaAccessory ;;
                ret (Some true)
            | Some existing =>
                effect (Log Warn "Accessory already initialized") ;;
                effect (Emit UPDATE_INFO [AHandle existing]) ;;
                effect (Identify existing) ;;
                ret (Some true)
            end
      end
  end.

(** The synchronous body of [addDingzDevice]; the promise it creates is
    returned next to the method's own result so that it can be settled
    later. *)
Definition addDingzDevice (address : string) (name : option string)
    (token : option string)
  : M (bool * Promise (option DingzDevices) (option bool)) :=
  let name := default "Unnamed DingzDa Device" name in
  effect (Log Debug "Add configured device ->") ;;
  info <- getDingzDeviceInfo address token ;;
  let success := then_ info (addDingzDevice_then address name token) in
  if negb (ToBoolean success)
  then throw (DeviceNotReachableError name address)
  else ret (true, success).

Definition addMyStromSwitchDevice_then (address name : string)
    (token : option string) (data : option MyStromDeviceInfo)
  : M (option bool) :=
  match data with
  | None => ret None
  | Some info =>
      if strict_ne (ms_type info) (TStr "WS2")
         && strict_ne (ms_type info) (TNum 106)
         && strict_ne (ms_type info) (TStr "WSEU")
         && strict_ne (ms_type info) (TNum 107)
         && strict_ne (ms_type info) TUndefined
      then throw (InvalidTypeError name address (ms_type info))
      else
        let deviceInfo :=
          {| di_name := default name (ms_name info);
             di_address := address;
             di_mac := toUpperCase (ms_mac info);
             di_token := token;
             di_model := default "CH v1" (MYSTROM_SWITCH_TYPES (ms_type info));
             di_hwInfo := HwMyStrom info;
             di_accessoryClass := MyStromSwitchAccessory |} in
        let uuid := generate (di_mac deviceInfo) in
        registry <- get_accessories ;;
        match registry !! uuid with
        | None =>
            effect (Log Info "Registering new accessory:") ;;
            let accessory :=
              {| displayName := di_name deviceInfo;
                 UUID := uuid;
                 context_device := deviceInfo |} in
            let myStromSwitchAccessory :=
              {| handle_class := MyStromSwitchAccessory;
                 handle_accessory := accessory |} in
            effect (Construct myStromSwitchAccessory) ;;
            effect (RegisterPlatformAccessories accessory) ;;
            set_accessory uuid myStromSwitchAccessory ;;
            ret (Some true)
        | Some existing =>
            effect (Log Warn "Accessory already initialized") ;;
            effect (Identify existing) ;;
            ret (Some true)
        end
  end.

Definition addMyStromSwitchDevice (address : string) (name : option string)
    (token : option string)
  : M (bool * Promise (option MyStromDeviceInfo) (option bool)) :=
  let name := default "Unidentified myStrom Switch" name in
  effect (Log Debug "Add configured/discovered device ->") ;;
  info <- getMyStromDeviceInfo address token (Some "info") ;;
  let success := then_ info (addMyStromSwitchDevice_then address name token) in
  if negb (ToBoolean success)
  then throw (DeviceNotReachableError name address)
  else ret (true, success).

Definition addMyStromLightbulbDevice_then (address name : string)
    (token : option string) (data : option MyStromDeviceInfo)
  : M (option bool) :=
  match data with
  | None => ret None
  | Some info =>
      if strict_ne (ms_type info) (TNum 102)
         && strict_ne (ms_type info) (TNum 105)
         && strict_ne (ms_type info) (TStr "WRS")
      then throw (InvalidTypeError name address (ms_type info))
      else
        let deviceInfo :=
          {| di_name := default name (ms_name info);
             di_address := address;
             di_mac := toUpperCase (ms_mac info);
             di_token := token;
             di_model := "102";
             di_hwInfo := HwMyStrom info;
             di_accessoryClass := MyStromLightbulbAccessory |} in
        let uuid := generate (di_mac deviceInfo) in
        registry <- get_accessories ;;
        match registry !! uuid with
        | None =>
            effect (Log Info "Registering new accessory:") ;;
            let accessory :=
              {| displayName := di_name deviceInfo;
                 UUID := uuid;
                 context_device := deviceInfo |} in
            let myStromLightbulbAccessory :=
              {| handle_class := MyStromLightbulbAccessory;
                 handle_accessory := accessory |} in
            effect (Construct myStromLightbulbAccessory) ;;
            effect (RegisterPlatformAccessories accessory) ;;
            set_accessory uuid myStromLightbulbAccessory ;;
            ret (Some true)
        | Some existing =>
            effect (Log Warn "Accessory already initialized") ;;
            effect (Identify existing) ;;
            ret (Some true)
        end
  end.

Definition addMyStromLightbulbDevice (address : string) (name : option string)
    (token : option string)
  : M (bool * Promise (option MyStromDeviceInfo) (option bool)) :=
  let name := default "Unidentified myStrom Lightbulb/LED" name in
  effect (Log Debug "Add configured/discovered device ->") ;;
  info <- getMyStromDeviceInfo address token None ;;
  let success :=
    then_ info (addMyStromLightbulbDevice_then address name token) in
  if negb (ToBoolean success)
  then throw (DeviceNotReachableError name address)
  else ret (true, success).

End Registration.

(** ** Discovery listener *)

(** The enum [DeviceTypes] and its numeric codes. *)
Inductive DeviceTypes : Type :=
| MYSTROM_SWITCH_CHV1
| MYSTROM_BULB
| MYSTROM_BUTTON_PLUS
| MYSTROM_BUTTON
| MYSTROM_LEDSTRIP
| MYSTROM_SWITCH_CHV2
| MYSTROM_SWITCH_EU
| DINGZ.

Definition DeviceTypes_code (t : DeviceTypes) : Z :=
  match t with
  | MYSTROM_SWITCH_CHV1 => 101
  | MYSTROM_BULB => 102
  | MYSTROM_BUTTON_PLUS => 103
  | MYSTROM_BUTTON => 104
  | MYSTROM_LEDSTRIP => 105
  | MYSTROM_SWITCH_CHV2 => 106
  | MYSTROM_SWITCH_EU => 107
  | DINGZ => 108
  end.

(** Which [case] label of the [switch] a byte value selects; [None] is the
    [default] branch. *)
Definition DeviceTypes_of_code (t : Z) : option DeviceTypes :=
  if t =? 101 then Some MYSTROM_SWITCH_CHV1
  else if t =? 102 then Some MYSTROM_BULB
  else if t =? 103 then Some MYSTROM_BUTTON_PLUS
  else if t =? 104 then Some MYSTROM_BUTTON
  else if t =? 105 then Some MYSTROM_LEDSTRIP
  else if t =? 106 then Some MYSTROM_SWITCH_CHV2
  else if t =? 107 then Some MYSTROM_SWITCH_EU
  else if t =? 108 then Some DINGZ
  else None.

(** [DeviceTypes[t]], the reverse mapping of a numeric enum. *)
Definition DeviceTypes_name (t : DeviceTypes) : string :=
  match t with
  | MYSTROM_SWITCH_CHV1 => "MYSTROM_SWITCH_CHV1"
  | MYSTROM_BULB => "MYSTROM_BULB"
  | MYSTROM_BUTTON_PLUS => "MYSTROM_BUTTON_PLUS"
  | MYSTROM_BUTTON => "MYSTROM_BUTTON"
  | MYSTROM_LEDSTRIP => "MYSTROM_LEDSTRIP"
  | MYSTROM_SWITCH_CHV2 => "MYSTROM_SWITCH_CHV2"
  | MYSTROM_SWITCH_EU => "MYSTROM_SWITCH_EU"
  | DINGZ => "DINGZ"
  end.

(** [retryWithBreaker.execute(() => { this.add...(...) })] as the listener
    sees it: the candidate is handed to the policy. *)
Definition execute_registration (entry : EntryPoint) (address name : string)
    (token : option string) : M unit :=
  effect (Execute {| c_entry := entry; c_address := address;
                     c_name := name; c_token := token |}).

(** The [switch (t)] of the listener. *)
Definition route_by_type (t : Z) (remoteInfo : RemoteInfo) : M unit :=
  token <- get_globalToken ;;
  match DeviceTypes_of_code t with
  | Some MYSTROM_BUTTON_PLUS
  | Some MYSTROM_BUTTON =>
      throw (DeviceNotImplementedError
               ("Device discovered at " ++ ri_address remoteInfo
                ++ " of unsupported type "
                ++ from_option DeviceTypes_name "" (DeviceTypes_of_code t)))
  | Some MYSTROM_LEDSTRIP =>
      execute_registration AddMyStromLightbulbDevice (ri_address remoteInfo)
        "Auto-Discovered MyStrom LED Strip" token
  | Some MYSTROM_BULB =>
      execute_registration AddMyStromLightbulbDevice (ri_address remoteInfo)
        "Auto-Discovered MyStrom Lightbulb" token
  | Some MYSTROM_SWITCH_CHV1
  | Some MYSTROM_SWITCH_CHV2
  | Some MYSTROM_SWITCH_EU =>
      execute_registration AddMyStromSwitchDevice (ri_address remoteInfo)
        "Auto-Discovered MyStromSwitch" token
  | Some DINGZ =>
      execute_registration AddDingzDevice (ri_address remoteInfo)
        "Auto-Discovered Dingz" token
  | None => effect (Log Warn "Unknown device:")
  end.

Definition datagramMessageHandler (msg : list Z) (remoteInfo : RemoteInfo)
  : M unit :=
  try_catch
    (if negb (length msg =? 8)%nat
     then throw (DeviceNotImplementedError "Detected data can not be parsed.")
     else
       let t := nth 6 msg 0 in
       let mac := byteToHexString (subarray 0 5 msg) in
       seen <- get_discovered ;;
       match seen !! mac with
       | Some _ =>
           effect (Log Debug
                     "Accessory already initialized. Stopping Discovery here.")
       | None =>
           route_by_type t remoteInfo ;;
           set_discovered mac remoteInfo
       end)
    (fun e =>
       match e with
       | DeviceNotImplementedError message => effect (Log Debug message)
       | _ => throw e
       end).

(** A discovery session: the datagrams are handled one after the other; an
    exception that leaves the handler ends the run. *)
Fixpoint discovery_session (datagrams : list (list Z * RemoteInfo)) : M unit :=
  match datagrams with
  | [] => ret tt
  | (msg, remoteInfo) :: rest =>
      datagramMessageHandler msg remoteInfo ;; discovery_session rest
  end.

(** ** Callback server and event bus *)

(** [URLSearchParams]: the name/value pairs of the query, in order. *)
Definition URLSearchParams : Type := list (string * string).

Definition has (key : string) (p : URLSearchParams) : bool :=
  existsb (fun kv => String.eqb (fst kv) key) p.

(** [p.get(name)]: the first value of that name, or [null]. *)
Fixpoint get (key : string) (p : URLSearchParams) : option string :=
  match p with
  | [] => None
  | (k, v) :: rest => if String.eqb k key then Some v else get key rest
  end.

(** [v || fallback] for [v] a string or [null]: the empty string and [null]
    are falsy. *)
Definition or_else (v : option string) (fallback : string) : string :=
  match v with
  | Some (String c r) => String c r
  | _ => fallback
  end.

Record IncomingMessage : Type := {
  url : option string;
  headers_host : option string;
}.

Section Callback.

(** [new URL(input, base).searchParams]; the URL constructor throws on input
    it cannot parse. *)
Variable URL_searchParams : string -> string -> Completion URLSearchParams.

(** The function handed to [response.end]. *)
Definition handleRequest_finished (p : URLSearchParams) : M unit :=
  if has "mac" p && has "action" p && has "button" p
  then
    let mac := or_else (get "mac" p) "" in
    let button := or_else (get "button" p) "" in
    let action := or_else (get "action" p) "1" in
    effect (Emit BTN_PRESS [AStr mac; AStr button; AStr action])
  else ret tt.

Definition handleRequest (request : IncomingMessage) : M unit :=
  match url request with
  | Some (String c r) =>
      match URL_searchParams (String c r)
              ("http://" ++ default "undefined" (headers_host request)) with
      | Throw e => throw e
      | Return searchParams =>
          effect (WriteHead 204) ;;
          effect EndResponse ;;
          handleRequest_finished searchParams
      end
  | _ => ret tt
  end.

End Callback.

(** What a subscriber written against the declared signature
    [(mac: string, action: ButtonAction, button: ButtonId) => void] holds in
    its three parameters. *)
Record ButtonPress : Type := {
  bp_mac : string;
  bp_action : string;
  bp_button : string;
}.

Definition declared_listener (mac action button : string) : ButtonPress :=
  {| bp_mac := mac; bp_action := action; bp_button := button |}.

(** [EventEmitter.emit(event, ...args)] calls [listener(...args)]: arguments
    are bound by position. *)
Definition deliver {R} (listener : string -> string -> string -> R)
    (args : list Arg) : option R :=
  match args with
  | [AStr a0; AStr a1; AStr a2] => Some (listener a0 a1 a2)
  | _ => None
  end.

(** The effects a computation adds to the trace. *)
Definition emitted (e : Effect) : bool :=
  match e with
  | Emit _ _ => true
  | _ => false
  end.

Definition is_execute (e : Effect) : bool :=
  match e with
  | Execute _ => true
  | _ => false
  end.

Definition is_construct (e : Effect) : bool :=
  match e with
  | Construct _ => true
  | _ => false
  end.

Definition is_update_info (e : Effect) : bool :=
  match e with
  | Emit UPDATE_INFO _ => true
  | _ => false
  end.

(** ** Resilience policies

    The platform builds its policies from a library:
    [Policy.handleAll().retry().exponential({maxDelay, maxAttempts: 20})],
    [Policy.handleAll().circuitBreaker(10 * 1000, new ConsecutiveBreaker(5))]
    and [Policy.wrap(retry, circuitBreaker)].  The constants and the
    [handleAll] filter are the platform's; the machinery behind them is
    described below as the specification words it.  Time is a clock value in
    milliseconds; the waits between attempts are an input. *)

Module Policy.

(** [Policy.handleAll()]: the policy handles every error. *)
Definition handleAll (e : Error) : bool := true.

Definition threshold : nat := 5.
Definition halfOpenAfter : Z := 10 * 1000.
Definition maxAttempts : nat := 20.

Inductive CircuitState : Type :=
| Closed
| Open (openedAt : Z).

(** One pass through the circuit breaker, as the history records it. *)
Record Attempt : Type := {
  at_time : Z;
  before : CircuitState;
  invoked : bool;
  after : CircuitState;
}.

(** The state the policies share between executions, with the number of
    times the wrapped operation has been invoked so far. *)
Record PolicyState : Type := {
  circuit : CircuitState;
  failures : nat;
  invocations : nat;
  now : Z;
  history : list Attempt;
}.

Definition fresh (t0 : Z) : PolicyState :=
  {| circuit := Closed; failures := 0; invocations := 0; now := t0;
     history := [] |}.

(** An operation that fails on every invocation. *)
Definition always_failing {A} (err : nat -> Error) : nat -> Completion A :=
  fun n => Throw (err n).

(** An attempt made with the breaker closed, which invoked the operation. *)
Definition closed_and_invoked (a : Attempt) : Prop :=
  before a = Closed /\ invoked a = true.

(** An attempt that, if it found the breaker open and still cooling down,
    was turned away without invoking the operation. *)
Definition rejected_while_open (a : Attempt) : Prop :=
  forall openedAt,
    before a = Open openedAt ->
    at_time a - openedAt < halfOpenAfter ->
    invoked a = false /\ after a = Open openedAt.

(** Whether an attempt invoked the operation while the breaker was still
    closed, that is, before the breaker opened. *)
Definition invoked_while_closed (a : Attempt) : bool :=
  match before a with
  | Closed => invoked a
  | Open _ => false
  end.

Section Execute.

Context {A : Type}.

(** The wrapped operation: the outcome of its n-th invocation. *)
Variable op : nat -> Completion A.

(** The wait the backoff inserts after the k-th failed attempt. *)
Variable delay : nat -> Z.

(** Modelled from the spec: the circuit breaker of the policy library, which
    is not part of the platform's sources.  It "tracks consecutive failures
    across invocations sharing the breaker; after N consecutive failures
    (N=5) it opens and rejects new invocations immediately (without invoking
    op) for a cool-down window (10 seconds); after the window it half-opens,
    allowing one trial invocation to decide whether to close (reset) or
    re-open". *)
Definition breaker_execute (s : PolicyState) : Completion A * PolicyState :=
  match circuit s with
  | Closed =>
      let r := op (invocations s) in
      let count :=
        match r with
        | Return _ => 0%nat
        | Throw e => if handleAll e then S (failures s) else failures s
        end in
      let circuit' :=
        match r with
        | Return _ => Closed
        | Throw e =>
            if handleAll e && (threshold <=? count)%nat
            then Open (now s) else Closed
        end in
      (r,
       {| circuit := circuit'; failures := count;
          invocations := S (invocations s); now := now s;
          history := history s ++
            [{| at_time := now s; before := Closed; invoked := true;
                after := circuit' |}] |})
  | Open openedAt =>
      if now s - openedAt <? halfOpenAfter
      then
        (Throw BrokenCircuitError,
         {| circuit := Open openedAt; failures := failures s;
            invocations := invocations s; now := now s;
            history := history s ++
              [{| at_time := now s; before := Open openedAt;
                  invoked := false; after := Open openedAt |}] |})
      else
        let r := op (invocations s) in
        let circuit' :=
          match r with
          | Return _ => Closed
          | Throw e => if handleAll e then Open (now s) else Open openedAt
          end in
        (r,
         {| circuit := circuit';
            failures := match r with
                        | Return _ => 0%nat
                        | Throw _ => failures s
                        end;
            invocations := S (invocations s); now := now s;
            history := history s ++
              [{| at_time := now s; before := Open openedAt; invoked := true;
                  after := circuit' |}] |})
  end.

Definition wait (d : Z) (s : PolicyState) : PolicyState :=
  {| circuit := circuit s; failures := failures s;
     invocations := invocations s; now := now s + d;
     history := history s |}.

(** Modelled from the spec: the retry loop of the policy library, composed
    around the breaker ("retry wraps circuit-breaker wraps the underlying
    operation - each retry attempt is itself gated by the breaker").  It
    "invokes op; on failure ... waits ... and retries", for as long as
    retries are left and the policy's filter handles the error. *)
Fixpoint retry_loop (retriesLeft attempt : nat) (s : PolicyState)
  : Completion A * PolicyState :=
  match breaker_execute s with
  | (Return a, s') => (Return a, s')
  | (Throw e, s') =>
      if handleAll e
      then
        match retriesLeft with
        | O => (Throw e, s')
        | S retriesLeft' =>
            retry_loop retriesLeft' (S attempt) (wait (delay attempt) s')
        end
      else (Throw e, s')
  end.

(** [retryWithBreaker.execute(op)] *)
Definition retryWithBreaker_execute (s : PolicyState)
  : Completion A * PolicyState :=
  retry_loop maxAttempts 0 s.

(** The policy state the retry loop is in after [k] failed attempts, the
    wait that follows each of them included; [attempt] numbers the first of
    them. *)
Fixpoint after_attempts (k attempt : nat) (s : PolicyState) : PolicyState :=
  match k with
  | O => s
  | S k' =>
      after_attempts k' (S attempt)
        (wait (delay attempt) (snd (breaker_execute s)))
  end.

End Execute.

End Policy.

(** ** Whole registration flows *)

(** The settlement of a promise, observed without letting a rejection
    escape. *)
Definition settled {A} (m : M A) : M (Completion A) :=
  fun p => let '(c, p') := m p in (Return c, p').

(** One registration from the call of the entry point to the moment the
    HTTP round trip has ended with [response]: what the call returned, and
    how the promise it left behind was settled. *)
Definition registration_flow {I}
    (entry : M (bool * Promise I (option bool))) (response : I)
  : M (bool * Completion (option bool)) :=
  call <- entry ;;
  outcome <- settled (settle (snd call) response) ;;
  ret (fst call, outcome).

(** An entry point as the operation [addDevices] hands to the policy,
    [() => this.addMyStromSwitchDevice({...})] and the like: the n-th
    invocation runs the call in the platform state of that moment,
    [states n], and completes as the call does, with the value the call
    returned.  The promise the call left behind is not part of it. *)
Definition as_operation {I}
    (entry : M (bool * Promise I (option bool))) (states : nat -> Platform)
  : nat -> Completion bool :=
  fun n =>
    match fst (entry (states n)) with
    | Return call => Return (fst call)
    | Throw e => Throw e
    end.

(** The type values each entry point lets through. *)
Definition dingz_types : list TypeField := [TStr "dingz"].

Definition switch_types : list TypeField :=
  [TStr "WS2"; TNum 106; TStr "WSEU"; TNum 107; TUndefined].

Definition lightbulb_types : list TypeField :=
  [TNum 102; TNum 105; TStr "WRS"].

(** Two registration flows run one after the other for a device whose
    identity is [uuid]: both calls return [true] and both promises are
    fulfilled with [true], the registry has the identity after the first
    flow and is left alone by the second, at most one handler was
    constructed in all, and the second flow does exactly [acknowledge] with
    the handler it found. *)
Definition registered_once
    (first second : M (bool * Completion (option bool))) (uuid : string)
    (acknowledge : Handle -> list Effect) (st : Platform) : Prop :=
  let st1 := snd (first st) in
  let st2 := snd (second st1) in
  fst (first st) = Return (true, Return (Some true)) /\
  fst (second st1) = Return (true, Return (Some true)) /\
  exists existing added,
    accessories st1 !! uuid = Some existing /\
    dom (accessories st1) = {[uuid]} ∪ dom (accessories st) /\
    accessories st2 = accessories st1 /\
    trace st1 = (trace st ++ added)%list /\
    (length (List.filter is_construct added) <= 1)%nat /\
    trace st2 = (trace st1 ++ acknowledge existing)%list.

(** ** Restoring cached accessories and looking accessories up *)

(** [accessory.context.device] of an accessory the bridge restores from its
    cache: the device record as an earlier run stored it.  The class tag is
    whatever string that run wrote, or missing. *)
Record CachedDevice : Type := {
  cd_name : string;
  cd_address : string;
  cd_mac : string;
  cd_token : option string;
  cd_model : string;
  cd_hwInfo : HwInfo;
  cd_accessoryClass : option string;
}.

(** A cached accessory; its context may hold no device at all. *)
Record CachedAccessory : Type := {
  cached_displayName : string;
  cached_UUID : string;
  cached_device : option CachedDevice;
}.

(** The [case] labels of the [switch] in [configureAccessory]. *)
Definition AccessoryClass_of_string (s : string) : option AccessoryClass :=
  if String.eqb s "DingzDaAccessory" then Some DingzDaAccessory
  else if String.eqb s "MyStromSwitchAccessory" then Some MyStromSwitchAccessory
  else if String.eqb s "MyStromLightbulbAccessory"
       then Some MyStromLightbulbAccessory
  else None.

(** The cached accessory as the handler constructed for it holds it. *)
Definition restored_accessory (accessory : CachedAccessory)
    (device : CachedDevice) (cls : AccessoryClass) : PlatformAccessory :=
  {| displayName := cached_displayName accessory;
     UUID := cached_UUID accessory;
     context_device :=
       {| di_name := cd_name device;
          di_address := cd_address device;
          di_mac := cd_mac device;
          di_token := cd_token device;
          di_model := cd_model device;
          di_hwInfo := cd_hwInfo device;
          di_accessoryClass := cls |} |}.

(** [configureAccessory].  Its first statement reads
    [accessory.context.device.accessoryClass] for the log line, which is a
    [TypeError] when the context holds no device. *)
Definition configureAccessory (accessory : CachedAccessory) : M unit :=
  match cached_device accessory with
  | None =>
      throw (TypeError "Cannot read property 'accessoryClass' of undefined")
  | Some device =>
      effect (Log Info "Restoring accessory from cache:") ;;
      match cd_accessoryClass device with
      | Some (String c r) =>
          effect (Log Debug "Restoring accessory of class ->") ;;
          match AccessoryClass_of_string (String c r) with
          | Some cls =>
              let platformAccessory :=
                {| handle_class := cls;
                   handle_accessory :=
                     restored_accessory accessory device cls |} in
              effect (Construct platformAccessory) ;;
              set_accessory (cached_UUID accessory) platformAccessory
          | None =>
              effect (Log Warn "No Accessory type defined for Accessory")
          end
      | _ => effect (Log Warn "No Accessory device context for Accessory")
      end
  end.

(** The class tag as the entry points write it into [accessoryClass]. *)
Definition AccessoryClass_name (cls : AccessoryClass) : string :=
  match cls with
  | DingzDaAccessory => "DingzDaAccessory"
  | MyStromSwitchAccessory => "MyStromSwitchAccessory"
  | MyStromLightbulbAccessory => "MyStromLightbulbAccessory"
  end.

(** A registered accessory as the bridge hands it back after a restart:
    display name, UUID and [context.device] as they were stored. *)
Definition cache_of (accessory : PlatformAccessory) : CachedAccessory :=
  let device := context_device accessory in
  {| cached_displayName := displayName accessory;
     cached_UUID := UUID accessory;
     cached_device :=
       Some {| cd_name := di_name device;
               cd_address := di_address device;
               cd_mac := di_mac device;
               cd_token := di_token device;
               cd_model := di_model device;
               cd_hwInfo := di_hwInfo device;
               cd_accessoryClass :=
                 Some (AccessoryClass_name (di_accessoryClass device)) |} |}.

Section Lookup.

Variable generate : string -> string.

(** [getAccessoryByMac] *)
Definition getAccessoryByMac (mac : string) : M (option Handle) :=
  registry <- get_accessories ;;
  ret (registry !! generate (toUpperCase mac)).

End Lookup.

(** ** Reading a rendered MAC back *)

(** The value of an uppercase hexadecimal digit, from its character code:
    the digits are 48 to 57, the letters A to F are 65 to 70. *)
Definition hex_value (c : ascii) : option Z :=
  let code := Z.of_nat (nat_of_ascii c) in
  if (48 <=? code) && (code <=? 57) then Some (code - 48)
  else if (65 <=? code) && (code <=? 70) then Some (code - 55)
  else None.

(** Reading a string of uppercase hexadecimal digits as bytes, two digits
    per byte. *)
Fixpoint hexToBytes (s : string) : option (list Z) :=
  match s with
  | EmptyString => Some []
  | String h (String l rest) =>
      match hex_value h, hex_value l, hexToBytes rest with
      | Some x, Some y, Some bytes => Some (16 * x + y :: bytes)
      | _, _, _ => None
      end
  | String _ EmptyString => None
  end.

(** The registration launched by the listener for a device family. *)
Definition family_entry (t : DeviceTypes) : option EntryPoint :=
  match t with
  | MYSTROM_SWITCH_CHV1 | MYSTROM_SWITCH_CHV2 | MYSTROM_SWITCH_EU =>
      Some AddMyStromSwitchDevice
  | MYSTROM_BULB | MYSTROM_LEDSTRIP => Some AddMyStromLightbulbDevice
  | DINGZ => Some AddDingzDevice
  | MYSTROM_BUTTON_PLUS | MYSTROM_BUTTON => None
  end.

(** A first registration: the registry gains one handler of class [cls]
    under [uuid], wrapping an accessory with the given device record; after
    the effects [before], the handler is constructed once and its accessory
    is handed to the bridge once. *)
Definition fresh_registration (st st' : Platform) (uuid : string)
    (cls : AccessoryClass) (address display mac : string)
    (token : option string) (model : string) (hw : HwInfo)
    (before : list Effect) : Prop :=
  let device :=
    {| di_name := display; di_address := address; di_mac := mac;
       di_token := token; di_model := model; di_hwInfo := hw;
       di_accessoryClass := cls |} in
  let accessory :=
    {| displayName := display; UUID := uuid; context_device := device |} in
  let handler := {| handle_class := cls; handle_accessory := accessory |} in
  accessories st' = <[uuid := handler]> (accessories st) /\
  discovered st' = discovered st /\
  trace st' =
    (trace st ++ before ++
       [Log Info "Registering new accessory:";
        Construct handler;
        RegisterPlatformAccessories accessory])%list.

(** ** Accessory handlers

    [MyStromSwitchAccessory] and [MyStromPIRAccessory].  A handler's state is
    the fields its methods read and write; what it does to the outside
    (platform log and [platform.fetch], the callbacks of the bridge,
    [updateCharacteristic]) is appended to its list of events.  JavaScript
    numbers are kept abstract: the handlers only store them, pass them on
    and, once, compare one with zero. *)

Module Accessory.

Class Numbers : Type := {
  Number : Type;
  zero : Number;
  forty_two : Number;
  (** [x > 0] *)
  gt_zero : Number -> bool;
}.

Section Handlers.

Context `{Numbers}.

Inductive Value : Type :=
| VBool (b : bool)
| VNumber (n : Number).

Inductive Service : Type :=
| Outlet
| TemperatureSensor
| LightSensor
| MotionSensor.

Inductive Characteristic : Type :=
| On
| OutletInUse
| CurrentTemperature
| CurrentAmbientLightLevel
| MotionDetected.

Definition Characteristic_eqb (a b : Characteristic) : bool :=
  match a, b with
  | On, On
  | OutletInUse, OutletInUse
  | CurrentTemperature, CurrentTemperature
  | CurrentAmbientLightLevel, CurrentAmbientLightLevel
  | MotionDetected, MotionDetected => true
  | _, _ => false
  end.

Inductive Event : Type :=
| FromPlatform (e : Effect)
| Callback (value : option Value)
| UpdateCharacteristic (service : Service) (c : Characteristic) (v : Value).

(** [hwInfo?.type] *)
Definition HwInfo_type (hw : HwInfo) : TypeField :=
  match hw with
  | HwDingz i => dz_type i
  | HwMyStrom i => ms_type i
  end.

(** *** MyStromSwitchAccessory *)

Record MyStromSwitchReport : Type := {
  power : Number;
  relay : bool;
  temperature : Number;
}.

(** [outletState] is declared a report, but the poller assigns it whatever
    [getDeviceReport] resolved to, [undefined] included. *)
Record SwitchAccessory : Type := {
  sw_accessory : PlatformAccessory;
  outletState : option MyStromSwitchReport;
  temperatureService : bool;
  sw_events : list Event;
}.

Definition sw_device (s : SwitchAccessory) : DeviceInfo :=
  context_device (sw_accessory s).

Definition sw_baseUrl (s : SwitchAccessory) : string :=
  "http://" ++ di_address (sw_device s).

Definition sw_emit (events : list Event) (s : SwitchAccessory)
  : SwitchAccessory :=
  {| sw_accessory := sw_accessory s;
     outletState := outletState s;
     temperatureService := temperatureService s;
     sw_events := sw_events s ++ events |}.

Definition sw_set_outletState (o : option MyStromSwitchReport)
    (s : SwitchAccessory) : SwitchAccessory :=
  {| sw_accessory := sw_accessory s;
     outletState := o;
     temperatureService := temperatureService s;
     sw_events := sw_events s |}.

(** The fields the constructor initialises.  The temperature service is
    created when [this.device.hwInfo?.type !== undefined]; the calls that
    describe the accessory to the bridge are not part of the state. *)
Definition new_MyStromSwitchAccessory (accessory : PlatformAccessory)
  : SwitchAccessory :=
  {| sw_accessory := accessory;
     outletState :=
       Some {| power := zero; relay := false; temperature := zero |};
     temperatureService :=
       strict_ne (HwInfo_type (di_hwInfo (context_device accessory)))
         TUndefined;
     sw_events := [] |}.

(** [setDeviceState]: the request is sent and its outcome is not awaited. *)
Definition setDeviceState (isOn : bool) (s : SwitchAccessory)
  : SwitchAccessory :=
  let relayUrl :=
    sw_baseUrl s ++ "/relay?state=" ++ (if isOn then "1" else "0") in
  sw_emit [FromPlatform
             (HttpRequest relayUrl (default "" (di_token (sw_device s))))] s.

(** What [platform.fetch] does when a request sent by [setDeviceState]
    comes to its end: a transport error is logged, nothing else. *)
Definition setDeviceState_settled (status : option Z) (s : SwitchAccessory)
  : SwitchAccessory :=
  match status with
  | Some _ => s
  | None => sw_emit [FromPlatform (Log LogError "Error:")] s
  end.

Definition setOn (value : bool) (s : SwitchAccessory)
  : Completion unit * SwitchAccessory :=
  let s1 := sw_emit [FromPlatform (Log Debug "Set Characteristic On ->")] s in
  match outletState s1 with
  | None =>
      (Throw (TypeError "Cannot set property 'relay' of undefined"), s1)
  | Some state =>
      let s2 :=
        sw_set_outletState
          (Some {| power := power state; relay := value;
                   temperature := temperature state |}) s1 in
      let s3 := setDeviceState value s2 in
      (Return tt, sw_emit [Callback None] s3)
  end.

Definition getOn (s : SwitchAccessory) : Completion unit * SwitchAccessory :=
  match outletState s with
  | None => (Throw (TypeError "Cannot read property 'relay' of undefined"), s)
  | Some state =>
      let isOn := relay state in
      (Return tt,
       sw_emit [FromPlatform (Log Debug "Get Characteristic On ->");
                Callback (Some (VBool isOn))] s)
  end.

Definition sw_getTemperature (s : SwitchAccessory)
  : Completion unit * SwitchAccessory :=
  match outletState s with
  | None =>
      (Throw (TypeError "Cannot read property 'temperature' of undefined"), s)
  | Some state =>
      (Return tt,
       sw_emit [FromPlatform (Log Debug "Get Characteristic Temperature ->");
                Callback (Some (VNumber (temperature state)))] s)
  end.

Definition getOutletInUse (s : SwitchAccessory)
  : Completion unit * SwitchAccessory :=
  match outletState s with
  | None => (Throw (TypeError "Cannot read property 'power' of undefined"), s)
  | Some state =>
      let inUse := gt_zero (power state) in
      (Return tt,
       sw_emit [FromPlatform (Log Debug "Get Characteristic OutletInUse ->");
                Callback (Some (VBool inUse))] s)
  end.

(** One tick of the poller set up by the constructor, from the request of
    [getDeviceReport] to the end of the promise chain.  [response] is what
    the device answered, if it did. *)
Definition sw_poll (response : option MyStromSwitchReport)
    (s : SwitchAccessory) : SwitchAccessory :=
  let s1 :=
    sw_emit [FromPlatform
               (HttpRequest (sw_baseUrl s ++ "/report")
                  (default "" (di_token (sw_device s))))] s in
  match response with
  | Some report =>
      let s2 := sw_set_outletState (Some report) s1 in
      let s3 :=
        sw_emit [UpdateCharacteristic Outlet On (VBool (relay report));
                 UpdateCharacteristic Outlet OutletInUse
                   (VBool (gt_zero (power report)))] s2 in
      let s4 :=
        if temperatureService s3
        then sw_emit [UpdateCharacteristic TemperatureSensor
                        CurrentTemperature (VNumber (temperature report))] s3
        else s3 in
      sw_emit [FromPlatform
                 (Log Debug
                    "Pushed updated current Outlet state to HomeKit ->")] s4
  | None =>
      let s2 := sw_emit [FromPlatform (Log LogError "Error:")] s1 in
      let s3 := sw_set_outletState None s2 in
      sw_emit [FromPlatform
                 (Log Debug "Error while retrieving Device Report ->")] s3
  end.

Fixpoint sw_polls (responses : list (option MyStromSwitchReport))
    (s : SwitchAccessory) : SwitchAccessory :=
  match responses with
  | [] => s
  | response :: rest => sw_polls rest (sw_poll response s)
  end.

(** *** MyStromPIRAccessory *)

(** The report of [/api/v1/sensors], by the fields the handler reads; the
    light level may be missing. *)
Record MyStromPIRReport : Type := {
  pir_motion : bool;
  pir_temperature : Number;
  pir_light : option Number;
}.

(** [pirState]; its [light] is read with a fallback, as a value that might
    be missing. *)
Record PIRAccessory : Type := {
  motion : bool;
  pir_state_temperature : Number;
  light : option Number;
  pir_events : list Event;
}.

Definition new_MyStromPIRAccessory : PIRAccessory :=
  {| motion := false; pir_state_temperature := zero; light := Some zero;
     pir_events := [] |}.

Definition pir_emit (events : list Event) (s : PIRAccessory) : PIRAccessory :=
  {| motion := motion s;
     pir_state_temperature := pir_state_temperature s;
     light := light s;
     pir_events := pir_events s ++ events |}.

Definition getLightLevel (s : PIRAccessory) : PIRAccessory :=
  let value := default forty_two (light s) in
  pir_emit [FromPlatform (Log Debug "Get Characteristic Ambient Light Level ->");
            Callback (Some (VNumber value))] s.

Definition pir_getTemperature (s : PIRAccessory) : PIRAccessory :=
  pir_emit [FromPlatform (Log Debug "Get Characteristic Temperature ->");
            Callback (Some (VNumber (pir_state_temperature s)))] s.

Definition getMotionDetected (s : PIRAccessory) : PIRAccessory :=
  pir_emit [Callback (Some (VBool (motion s)))] s.

(** One tick of the motion poller, from the request of [getDeviceReport]
    to the end of the promise chain; [address] and [token] are those of the
    handler's device.  The mutex around the request orders overlapping
    ticks; here a tick runs to its end before the next one starts. *)
Definition pir_poll (address : string) (token : option string)
    (response : option MyStromPIRReport) (s : PIRAccessory) : PIRAccessory :=
  let s1 :=
    pir_emit [FromPlatform
                (HttpRequest ("http://" ++ address ++ "/api/v1/sensors")
                   (default "" token))] s in
  match response with
  | Some report =>
      let isMotion := pir_motion report in
      let s2 :=
        if Bool.eqb (motion s1) isMotion
        then s1
        else
          let logged :=
            pir_emit [FromPlatform (Log Debug "Motion Update from POLLER")]
              s1 in
          pir_emit [UpdateCharacteristic MotionSensor MotionDetected
                      (VBool isMotion)]
            {| motion := isMotion;
               pir_state_temperature := pir_state_temperature logged;
               light := light logged;
               pir_events := pir_events logged |} in
      let s3 :=
        pir_emit [UpdateCharacteristic TemperatureSensor CurrentTemperature
                    (VNumber (pir_temperature report))]
          {| motion := motion s2;
             pir_state_temperature := pir_temperature report;
             light := light s2;
             pir_events := pir_events s2 |} in
      pir_emit [UpdateCharacteristic LightSensor CurrentAmbientLightLevel
                  (VNumber (default zero (pir_light report)))]
        {| motion := motion s3;
           pir_state_temperature := pir_state_temperature s3;
           light := Some (default zero (pir_light report));
           pir_events := pir_events s3 |}
  | None =>
      pir_emit [FromPlatform (Log LogError "Error:");
                FromPlatform
                  (Log LogError "Error -> unable to fetch DeviceMotion data")]
        s1
  end.

Fixpoint pir_polls (address : string) (token : option string)
    (responses : list (option MyStromPIRReport)) (s : PIRAccessory)
  : PIRAccessory :=
  match responses with
  | [] => s
  | response :: rest =>
      pir_polls address token rest (pir_poll address token response s)
  end.

(** The values pushed for a characteristic, in order. *)
Fixpoint pushed (c : Characteristic) (events : list Event) : list Value :=
  match events with
  | [] => []
  | UpdateCharacteristic _ c' v :: rest =>
      if Characteristic_eqb c c' then v :: pushed c rest else pushed c rest
  | _ :: rest => pushed c rest
  end.

(** The values handed to the bridge's callbacks, in order. *)
Fixpoint answered (events : list Event) : list (option Value) :=
  match events with
  | [] => []
  | Callback v :: rest => v :: answered rest
  | _ :: rest => answered rest
  end.

(** The answers of the device among the outcomes of a run of ticks. *)
Definition answers {R} (responses : list (option R)) : list R :=
  omap id responses.

(** The values of a sequence that differ from the value before them,
    starting from [current]. *)
Fixpoint changes (current : bool) (values : list bool) : list bool :=
  match values with
  | [] => []
  | v :: rest =>
      if Bool.eqb current v then changes current rest
      else v :: changes v rest
  end.

(** No value of the list equals the one before it. *)
Fixpoint alternating (values : list bool) : Prop :=
  match values with
  | a :: (b :: _) as rest => a <> b /\ alternating rest
  | _ => True
  end.

End Handlers.

End Accessory.

(** ** Sample inputs *)

(** The platform as its constructor leaves it: [accessories = {}] and
    [discovered = new Map()]. *)
Definition initial_platform : Platform :=
  {| globalToken := None; accessories := ∅; discovered := ∅; trace := [] |}.

Definition sample_remote : RemoteInfo :=
  {| ri_address := "192.168.1.20"; ri_port := 7979 |}.

(** [AA BB CC DD EE FF 6A 00]: a switch (type code 106). *)
Definition switch_datagram : list Z :=
  [170; 187; 204; 221; 238; 255; 106; 0].

(** The same MAC announced with type code 103, a push-button. *)
Definition button_datagram : list Z :=
  [170; 187; 204; 221; 238; 255; 103; 0].

(** A different MAC, [AA BB CC DD EE 00], announced as a switch. *)
Definition neighbour_datagram : list Z :=
  [170; 187; 204; 221; 238; 0; 106; 0].

(** A callback request: [/?mac=AABBCCDDEEFF&action=&button=2] and what the
    URL parser makes of its query. *)
Definition sample_request : IncomingMessage :=
  {| url := Some "/?mac=AABBCCDDEEFF&action=&button=2";
     headers_host := Some "homebridge.local:18081" |}.

Definition sample_query : URLSearchParams :=
  [("mac", "AABBCCDDEEFF"); ("action", ""); ("button", "2")].

(** The query of [/?mac=AABBCCDDEEFF&action=1]. *)
Definition query_without_button : URLSearchParams :=
  [("mac", "AABBCCDDEEFF"); ("action", "1")].

(** An info response of a myStrom switch, and one of type 107 as the
    lightbulb entry point may meet it. *)
Definition sample_switch_info : MyStromDeviceInfo :=
  {| ms_mac := "aabbccddeeff"; ms_type := TNum 107; ms_name := None |}.

Definition sample_bulb_info : MyStromDeviceInfo :=
  {| ms_mac := "a1b2c3d4e5f6"; ms_type := TNum 102; ms_name := None |}.

(** A device response of a dingz under its MAC. *)
Definition sample_dingz_devices : DingzDevices :=
  [("F008D1C4AABB", {| dz_type := TStr "dingz"; puck_hw_model := None |})].

(** A stand-in for the bridge's identity derivation. *)
Definition sample_generate (mac : string) : string := "uuid-" ++ mac.

(** The backoff of the sample runs: 128 ms doubled after every attempt, at
    most ten seconds. *)
Definition sample_delay (attempt : nat) : Z :=
  Z.min (10 * 1000) (128 * 2 ^ Z.of_nat attempt).

(** Integers standing in for numbers in the sample runs. *)
Definition Z_numbers : Accessory.Numbers :=
  {| Accessory.Number := Z; Accessory.zero := 0; Accessory.forty_two := 42;
     Accessory.gt_zero := fun x => 0 <? x |}.

(** The handler of a registered myStrom switch. *)
Definition sample_switch_accessory : PlatformAccessory :=
  {| displayName := "Plug"; UUID := "uuid-AABBCCDDEEFF";
     context_device :=
       {| di_name := "Plug"; di_address := "192.168.1.20";
          di_mac := "AABBCCDDEEFF"; di_token := None; di_model := "EU";
          di_hwInfo :=
            HwMyStrom {| ms_mac := "aabbccddeeff"; ms_type := TNum 107;
                         ms_name := None |};
          di_accessoryClass := MyStromSwitchAccessory |} |}.

(** * Properties *)

(** ** Basic facts *)

Lemma strict_ne_spec (a b : TypeField) : strict_ne a b = true <-> a <> b.
Proof.
  destruct a as [x|x|], b as [y|y|]; simpl; split; try congruence; try easy.
  - intros H E. injection E as ->. rewrite Z.eqb_refl in H. discriminate.
  - intros H. destruct (Z.eqb_spec x y); [subst; congruence | reflexivity].
  - intros H E. injection E as ->. rewrite String.eqb_refl in H. discriminate.
  - intros H. destruct (String.eqb_spec x y); [subst; congruence | reflexivity].
Qed.

Lemma strict_ne_same (a : TypeField) : strict_ne a a = false.
Proof.
  destruct (strict_ne a a) eqn:E; [|reflexivity].
  apply strict_ne_spec in E. congruence.
Qed.

Lemma has_get (key : string) (p : URLSearchParams) :
  has key p = true <-> exists v, get key p = Some v.
Proof.
  induction p as [|[k v] rest IH]; simpl.
  - split; [discriminate | intros [v H]; discriminate].
  - destruct (String.eqb k key).
    + split; [eauto | reflexivity].
    + simpl. exact IH.
Qed.

Lemma has_false_get (key : string) (p : URLSearchParams) :
  has key p = false <-> get key p = None.
Proof.
  induction p as [|[k v] rest IH]; simpl.
  - split; reflexivity.
  - destruct (String.eqb k key); simpl; [split; discriminate | exact IH].
Qed.

Lemma subarray_mac_bytes (m1 m2 : list Z) :
  firstn 6 m1 = firstn 6 m2 -> subarray 0 5 m1 = subarray 0 5 m2.
Proof.
  intros H. unfold subarray.
  change (skipn 0 m1) with m1. change (skipn 0 m2) with m2.
  change (5 - 0)%nat with (Nat.min 5 6).
  rewrite <- !firstn_firstn. now rewrite H.
Qed.

(** ** Discovery listener *)

Lemma DeviceTypes_of_code_code (t : DeviceTypes) :
  DeviceTypes_of_code (DeviceTypes_code t) = Some t.
Proof. destruct t; reflexivity. Qed.

Ltac run_handler :=
  unfold datagramMessageHandler, route_by_type, execute_registration,
    try_catch, bind, ret, throw, effect, get_discovered, get_globalToken,
    set_discovered.

Lemma datagramMessageHandler_returns msg remoteInfo st :
  fst (datagramMessageHandler msg remoteInfo st) = Return tt.
Proof.
  run_handler.
  destruct (negb (length msg =? 8)%nat); simpl; [reflexivity|].
  destruct (discovered st !! _); simpl; [reflexivity|].
  destruct (DeviceTypes_of_code (nth 6 msg 0)) as [[]|]; reflexivity.
Qed.

Lemma datagramMessageHandler_keeps_seen msg remoteInfo st key :
  is_Some (discovered st !! key) ->
  is_Some (discovered (snd (datagramMessageHandler msg remoteInfo st)) !! key).
Proof.
  intros Hseen. run_handler.
  destruct (negb (length msg =? 8)%nat); simpl; [assumption|].
  destruct (discovered st !! byteToHexString _) eqn:E; simpl; [assumption|].
  destruct (DeviceTypes_of_code (nth 6 msg 0)) as [[]|]; simpl;
    try assumption; rewrite lookup_insert_is_Some'; tauto.
Qed.

Lemma discovery_session_returns datagrams st :
  fst (discovery_session datagrams st) = Return tt.
Proof.
  revert st. induction datagrams as [|[msg ri] rest IH]; intros st; simpl.
  - reflexivity.
  - unfold bind.
    pose proof (datagramMessageHandler_returns msg ri st) as H.
    destruct (datagramMessageHandler msg ri st) as [c st1]. simpl in H.
    subst c. apply IH.
Qed.

Lemma discovery_session_keeps_seen datagrams st key :
  is_Some (discovered st !! key) ->
  is_Some (discovered (snd (discovery_session datagrams st)) !! key).
Proof.
  revert st. induction datagrams as [|[msg ri] rest IH]; intros st Hseen; simpl.
  - assumption.
  - unfold bind.
    pose proof (datagramMessageHandler_returns msg ri st) as H.
    pose proof (datagramMessageHandler_keeps_seen msg ri st key Hseen) as K.
    destruct (datagramMessageHandler msg ri st) as [c st1]. simpl in H, K.
    subst c. now apply IH.
Qed.

(** C5. A datagram whose length is not 8 is dropped: the handler returns
    normally (no exception leaves it), the only effect is one debug log
    line, so no registration is handed to the policy, and neither the
    seen-set nor the accessory registry changes. *)
Theorem datagram_length_guard msg remoteInfo st :
  length msg <> 8%nat ->
  exists st',
    datagramMessageHandler msg remoteInfo st = (Return tt, st') /\
    trace st' =
      (trace st ++ [Log Debug "Detected data can not be parsed."])%list /\
    List.filter is_execute (trace st') = List.filter is_execute (trace st) /\
    discovered st' = discovered st /\
    accessories st' = accessories st.
Proof.
  intros Hlen. run_handler.
  destruct (Nat.eqb_spec (length msg) 8) as [E|_]; [contradiction|].
  simpl. eexists. split; [reflexivity|]. simpl.
  repeat split. rewrite List.filter_app. simpl. now rewrite app_nil_r.
Qed.

Lemma datagram_length_guard_witness :
  exists st',
    datagramMessageHandler [170; 187; 204] sample_remote initial_platform
      = (Return tt, st') /\
    trace st' =
      (trace initial_platform
         ++ [Log Debug "Detected data can not be parsed."])%list /\
    List.filter is_execute (trace st')
      = List.filter is_execute (trace initial_platform) /\
    discovered st' = discovered initial_platform /\
    accessories st' = accessories initial_platform.
Proof.
  apply (datagram_length_guard [170; 187; 204] sample_remote initial_platform).
  simpl. lia.
Defined.

Example byteToHexString_sample :
  byteToHexString [170; 11; 0; 255; 16] = "AA0B00FF10".
Proof. reflexivity. Qed.

(** Every byte is rendered as two characters. *)
Lemma byte_hex_length (b : Z) : String.length (byte_hex b) = 2%nat.
Proof.
  unfold byte_hex.
  assert (Hrange : 0 <= Z.land b 255 < 256).
  { split; [apply Z.land_nonneg; right; lia|].
    change 255 with (Z.ones 8). rewrite Z.land_ones by lia.
    apply Z.mod_pos_bound. lia. }
  assert (Hall : forallb
            (fun v => (String.length
                         (let hex := toString16 (Z.to_N v) in
                          if (String.length hex =? 1)%nat
                          then "0" ++ hex else hex) =? 2)%nat)
            (map Z.of_nat (seq 0 256)) = true) by (vm_compute; reflexivity).
  rewrite forallb_forall in Hall.
  apply Nat.eqb_eq. apply (Hall (Z.land b 255)).
  apply in_map_iff. exists (Z.to_nat (Z.land b 255)). split; [lia|].
  apply in_seq. lia.
Qed.

Lemma toUpperCase_length (s : string) :
  String.length (toUpperCase s) = String.length s.
Proof. induction s as [|c r IH]; simpl; congruence. Qed.

Lemma string_app_length (s t : string) :
  String.length (s ++ t) = (String.length s + String.length t)%nat.
Proof.
  induction s as [|c r IH]; [reflexivity|].
  change (String c r ++ t) with (String c (r ++ t)).
  simpl String.length. now rewrite IH.
Qed.

Lemma hex_loop_length (bytes : list Z) (acc : string) :
  String.length (hex_loop bytes acc)
  = (String.length acc + 2 * length bytes)%nat.
Proof.
  revert acc. induction bytes as [|b rest IH]; intros acc; simpl.
  - lia.
  - rewrite IH, string_app_length, byte_hex_length. lia.
Qed.

(** Two characters per byte, whatever the bytes are. *)
Lemma byteToHexString_length (bytes : list Z) :
  String.length (byteToHexString bytes) = (2 * length bytes)%nat.
Proof.
  unfold byteToHexString. rewrite toUpperCase_length, hex_loop_length.
  reflexivity.
Qed.

(** The MAC string the listener builds from an 8-byte datagram has ten
    characters: five bytes. *)
Lemma datagram_mac_length (msg : list Z) :
  length msg = 8%nat ->
  String.length (byteToHexString (subarray 0 5 msg)) = 10%nat.
Proof.
  intros Hlen. rewrite byteToHexString_length. unfold subarray.
  rewrite length_take, length_drop. lia.
Qed.

(** C6. The handler reads the type code from byte 6, but builds the MAC from
    [msg.subarray(0, 5)], which is bytes 0 to 4: for the datagram
    [AA BB CC DD EE FF 6A 00] the MAC it records is the ten characters
    AABBCCDDEE, not AABBCCDDEEFF, and a following datagram from the device
    with MAC AA BB CC DD EE 00 is taken for one already seen. *)
Theorem datagram_mac_uses_five_bytes :
  byteToHexString (subarray 0 5 switch_datagram) = "AABBCCDDEE" /\
  byteToHexString (firstn 6 switch_datagram) = "AABBCCDDEEFF" /\
  DeviceTypes_of_code (nth 6 switch_datagram 0) = Some MYSTROM_SWITCH_CHV2 /\
  let st1 :=
    snd (datagramMessageHandler switch_datagram sample_remote
           initial_platform) in
  let st2 := snd (datagramMessageHandler neighbour_datagram sample_remote st1) in
  discovered st1 !! "AABBCCDDEE" = Some sample_remote /\
  discovered st1 !! "AABBCCDDEEFF" = None /\
  List.filter is_execute (trace st2) = List.filter is_execute (trace st1).
Proof. vm_compute. repeat split. Qed.

(** The handler on a datagram whose MAC is already in the seen-set. *)
Lemma datagramMessageHandler_seen msg remoteInfo st :
  length msg = 8%nat ->
  is_Some (discovered st !! byteToHexString (subarray 0 5 msg)) ->
  datagramMessageHandler msg remoteInfo st =
    (Return tt,
     {| globalToken := globalToken st;
        accessories := accessories st;
        discovered := discovered st;
        trace := (trace st ++
          [Log Debug
             "Accessory already initialized. Stopping Discovery here."])%list
     |}).
Proof.
  intros Hlen [r Hr]. run_handler.
  rewrite Hlen. simpl. rewrite Hr. reflexivity.
Qed.

(** The handler records the MAC of a datagram it has routed, unless the
    type code is one of the two push-button codes. *)
Lemma datagramMessageHandler_records msg remoteInfo st :
  length msg = 8%nat ->
  DeviceTypes_of_code (nth 6 msg 0) <> Some MYSTROM_BUTTON_PLUS ->
  DeviceTypes_of_code (nth 6 msg 0) <> Some MYSTROM_BUTTON ->
  is_Some (discovered (snd (datagramMessageHandler msg remoteInfo st))
             !! byteToHexString (subarray 0 5 msg)).
Proof.
  intros Hlen Hplus Hbutton. run_handler.
  rewrite Hlen. simpl.
  destruct (discovered st !! byteToHexString _) eqn:E; simpl.
  - rewrite E. eauto.
  - destruct (DeviceTypes_of_code (nth 6 msg 0)) as [[]|]; simpl;
      try congruence; rewrite lookup_insert_eq; eauto.
Qed.

(** C7, as the code has it.  Of two 8-byte datagrams with the same six MAC
    bytes, the first being of any type but the two push-button codes, the
    first leaves the MAC in the seen-set, and the second, whatever was
    handled in between, is dropped with a debug line: it hands nothing to
    the policy and changes neither the seen-set nor the registry. *)
Theorem discovery_deduplication st m1 r1 between m2 r2 :
  length m1 = 8%nat ->
  length m2 = 8%nat ->
  firstn 6 m1 = firstn 6 m2 ->
  DeviceTypes_of_code (nth 6 m1 0) <> Some MYSTROM_BUTTON_PLUS ->
  DeviceTypes_of_code (nth 6 m1 0) <> Some MYSTROM_BUTTON ->
  let st1 := snd (datagramMessageHandler m1 r1 st) in
  let st' := snd (discovery_session between st1) in
  is_Some (discovered st1 !! byteToHexString (subarray 0 5 m1)) /\
  exists st2,
    datagramMessageHandler m2 r2 st' = (Return tt, st2) /\
    trace st2 =
      (trace st' ++
         [Log Debug
            "Accessory already initialized. Stopping Discovery here."])%list /\
    List.filter is_execute (trace st2) = List.filter is_execute (trace st') /\
    discovered st2 = discovered st' /\
    accessories st2 = accessories st'.
Proof.
  intros Hl1 Hl2 Hmac Hplus Hbutton st1 st'.
  assert (Hrec : is_Some
            (discovered st1 !! byteToHexString (subarray 0 5 m1)))
    by (apply datagramMessageHandler_records; assumption).
  split; [exact Hrec|].
  assert (Hseen : is_Some
            (discovered st' !! byteToHexString (subarray 0 5 m2))).
  { rewrite <- (subarray_mac_bytes m1 m2 Hmac).
    apply discovery_session_keeps_seen. exact Hrec. }
  rewrite (datagramMessageHandler_seen m2 r2 st' Hl2 Hseen).
  eexists. split; [reflexivity|]. simpl.
  repeat split. rewrite List.filter_app. simpl. now rewrite app_nil_r.
Qed.

Lemma discovery_deduplication_witness :
  let st1 :=
    snd (datagramMessageHandler switch_datagram sample_remote
           initial_platform) in
  let st' :=
    snd (discovery_session [(neighbour_datagram, sample_remote)] st1) in
  is_Some (discovered st1
             !! byteToHexString (subarray 0 5 switch_datagram)) /\
  exists st2,
    datagramMessageHandler switch_datagram sample_remote st'
      = (Return tt, st2) /\
    trace st2 =
      (trace st' ++
         [Log Debug
            "Accessory already initialized. Stopping Discovery here."])%list /\
    List.filter is_execute (trace st2) = List.filter is_execute (trace st') /\
    discovered st2 = discovered st' /\
    accessories st2 = accessories st'.
Proof.
  apply (discovery_deduplication initial_platform switch_datagram
           sample_remote [(neighbour_datagram, sample_remote)]
           switch_datagram sample_remote);
    vm_compute; congruence.
Defined.

(** C7 as stated fails on a push-button announcement: after
    [AA BB CC DD EE FF 67 00] the MAC is not in the seen-set, and the
    datagram [AA BB CC DD EE FF 6A 00] that follows, with the same MAC bytes,
    is not dropped but handed to the policy as a switch registration. *)
Lemma discovery_deduplication_counterexample :
  let st1 :=
    snd (datagramMessageHandler button_datagram sample_remote
           initial_platform) in
  let st2 := snd (datagramMessageHandler switch_datagram sample_remote st1) in
  firstn 6 button_datagram = firstn 6 switch_datagram /\
  discovered st1 !! byteToHexString (subarray 0 5 button_datagram) = None /\
  List.filter is_execute (trace st1) = [] /\
  List.filter is_execute (trace st2) =
    [Execute {| c_entry := AddMyStromSwitchDevice;
                c_address := "192.168.1.20";
                c_name := "Auto-Discovered MyStromSwitch";
                c_token := None |}].
Proof. vm_compute. repeat split. Qed.

(** ** Callback server *)

Section CallbackProperties.

Variable URL_searchParams : string -> string -> Completion URLSearchParams.

Lemma handleRequest_parsed request c r p st :
  url request = Some (String c r) ->
  URL_searchParams (String c r)
    ("http://" ++ default "undefined" (headers_host request)) = Return p ->
  handleRequest URL_searchParams request st =
    handleRequest_finished p
      {| globalToken := globalToken st;
         accessories := accessories st;
         discovered := discovered st;
         trace := ((trace st ++ [WriteHead 204]) ++ [EndResponse])%list |}.
Proof.
  intros Hurl Hparse. unfold handleRequest. rewrite Hurl, Hparse.
  reflexivity.
Qed.

(** C8. For a request whose URL parses to the query [p]: when [mac],
    [action] and [button] are all present, the answer 204 is followed by
    exactly one [BTN_PRESS] event that carries the value of [mac], the value
    of [button], and the value of [action], or "1" when that value is the
    empty string; when one of the three is absent, [action] included, the
    answer is all there is and nothing is published. *)
Theorem callback_parameter_completeness request c r p st :
  url request = Some (String c r) ->
  URL_searchParams (String c r)
    ("http://" ++ default "undefined" (headers_host request)) = Return p ->
  (has "mac" p = true -> has "action" p = true -> has "button" p = true ->
   exists m b a,
     get "mac" p = Some m /\ get "button" p = Some b /\
     get "action" p = Some a /\
     exists st',
       handleRequest URL_searchParams request st = (Return tt, st') /\
       trace st' =
         (trace st ++
            [WriteHead 204; EndResponse;
             Emit BTN_PRESS
               [AStr m; AStr b;
                AStr (if String.eqb a "" then "1" else a)]])%list) /\
  (has "mac" p = false \/ has "action" p = false \/ has "button" p = false ->
   exists st',
     handleRequest URL_searchParams request st = (Return tt, st') /\
     trace st' = (trace st ++ [WriteHead 204; EndResponse])%list /\
     List.filter emitted (trace st') = List.filter emitted (trace st)).
Proof.
  intros Hurl Hparse.
  rewrite (handleRequest_parsed request c r p st Hurl Hparse).
  unfold handleRequest_finished. split.
  - intros Hm Ha Hb. rewrite Hm, Ha, Hb. simpl.
    apply has_get in Hm as [m Hm], Ha as [a Ha], Hb as [b Hb].
    exists m, b, a. repeat split; try assumption.
    rewrite Hm, Hb, Ha. unfold effect. simpl.
    eexists. split; [reflexivity|]. simpl.
    rewrite <- !app_assoc. simpl.
    destruct m, b, a; reflexivity.
  - intros Habsent.
    assert (E : has "mac" p && has "action" p && has "button" p = false).
    { destruct Habsent as [H|[H|H]]; rewrite H;
        rewrite ?andb_false_r; reflexivity. }
    rewrite E. unfold ret. eexists. split; [reflexivity|]. simpl.
    rewrite <- !app_assoc. simpl. split; [reflexivity|].
    rewrite List.filter_app. simpl. now rewrite app_nil_r.
Qed.

End CallbackProperties.

Lemma callback_parameter_completeness_witness :
  (exists m b a,
     get "mac" sample_query = Some m /\ get "button" sample_query = Some b /\
     get "action" sample_query = Some a /\
     exists st',
       handleRequest (fun _ _ => Return sample_query) sample_request
         initial_platform = (Return tt, st') /\
       trace st' =
         (trace initial_platform ++
            [WriteHead 204; EndResponse;
             Emit BTN_PRESS
               [AStr m; AStr b;
                AStr (if String.eqb a "" then "1" else a)]])%list) /\
  (exists st',
     handleRequest (fun _ _ => Return query_without_button) sample_request
       initial_platform = (Return tt, st') /\
     trace st' = (trace initial_platform ++ [WriteHead 204; EndResponse])%list /\
     List.filter emitted (trace st')
       = List.filter emitted (trace initial_platform)).
Proof.
  split.
  - apply (proj1 (callback_parameter_completeness
                    (fun _ _ => Return sample_query) sample_request "/"%char
                    "?mac=AABBCCDDEEFF&action=&button=2" sample_query
                    initial_platform eq_refl eq_refl));
      reflexivity.
  - apply (proj2 (callback_parameter_completeness
                    (fun _ _ => Return query_without_button) sample_request
                    "/"%char "?mac=AABBCCDDEEFF&action=&button=2"
                    query_without_button initial_platform eq_refl eq_refl)).
    right. right. reflexivity.
Defined.

Lemma or_else_Some (s fallback : string) :
  or_else (Some s) fallback = if String.eqb s "" then fallback else s.
Proof. destruct s; reflexivity. Qed.

(** C10. The event the callback server publishes has its arguments in the
    order (mac, button, action).  A subscriber with the declared parameter
    list (mac, action, button) is called with them by position, so its
    [action] parameter holds the button identifier and its [button]
    parameter holds the action code. *)
Theorem btn_press_argument_order p st m b a :
  get "mac" p = Some m ->
  get "button" p = Some b ->
  get "action" p = Some a ->
  exists st' args,
    handleRequest_finished p st = (Return tt, st') /\
    trace st' = (trace st ++ [Emit BTN_PRESS args])%list /\
    args = [AStr m; AStr b; AStr (if String.eqb a "" then "1" else a)] /\
    deliver declared_listener args =
      Some {| bp_mac := m;
              bp_action := b;
              bp_button := if String.eqb a "" then "1" else a |}.
Proof.
  intros Hm Hb Ha. unfold handleRequest_finished.
  assert (Hm' : has "mac" p = true) by (apply has_get; eauto).
  assert (Hb' : has "button" p = true) by (apply has_get; eauto).
  assert (Ha' : has "action" p = true) by (apply has_get; eauto).
  rewrite Hm', Hb', Ha', Hm, Hb, Ha. simpl andb. cbv iota.
  rewrite !or_else_Some. unfold effect.
  replace (if String.eqb m "" then "" else m) with m by (now destruct m).
  replace (if String.eqb b "" then "" else b) with b by (now destruct b).
  eexists. eexists. split; [reflexivity|]. simpl.
  repeat split.
Qed.

Lemma btn_press_argument_order_witness :
  exists st' args,
    handleRequest_finished
      [("mac", "AABBCCDDEEFF"); ("action", "3"); ("button", "2")]
      initial_platform = (Return tt, st') /\
    trace st' = (trace initial_platform ++ [Emit BTN_PRESS args])%list /\
    args = [AStr "AABBCCDDEEFF"; AStr "2"; AStr "3"] /\
    deliver declared_listener args =
      Some {| bp_mac := "AABBCCDDEEFF"; bp_action := "2"; bp_button := "3" |}.
Proof.
  apply (btn_press_argument_order
           [("mac", "AABBCCDDEEFF"); ("action", "3"); ("button", "2")]
           initial_platform "AABBCCDDEEFF" "2" "3");
    reflexivity.
Defined.

(** ** Registration *)

Lemma strict_ne_false (a b : TypeField) : strict_ne a b = false <-> a = b.
Proof.
  split.
  - destruct a as [x|x|], b as [y|y|]; simpl; try discriminate; intros H.
    + apply negb_false_iff, Z.eqb_eq in H. congruence.
    + apply negb_false_iff, String.eqb_eq in H. congruence.
    + reflexivity.
  - intros ->. apply strict_ne_same.
Qed.

Lemma dingz_types_check (t : TypeField) :
  strict_ne t (TStr "dingz") = false <-> In t dingz_types.
Proof.
  rewrite strict_ne_false. unfold dingz_types. simpl.
  split; [auto | intros [H|[]]; auto].
Qed.

Lemma switch_types_check (t : TypeField) :
  strict_ne t (TStr "WS2") && strict_ne t (TNum 106)
    && strict_ne t (TStr "WSEU") && strict_ne t (TNum 107)
    && strict_ne t TUndefined = false
  <-> In t switch_types.
Proof.
  rewrite !andb_false_iff, !strict_ne_false. unfold switch_types. simpl.
  intuition congruence.
Qed.

Lemma lightbulb_types_check (t : TypeField) :
  strict_ne t (TNum 102) && strict_ne t (TNum 105)
    && strict_ne t (TStr "WRS") = false
  <-> In t lightbulb_types.
Proof.
  rewrite !andb_false_iff, !strict_ne_false. unfold lightbulb_types. simpl.
  intuition congruence.
Qed.

Lemma rejected_iff_not_accepted (c : bool) (P : Prop) :
  (c = false <-> P) -> ~ P -> c = true.
Proof. intros H N. destruct c; [reflexivity | exfalso; apply N, H; reflexivity]. Qed.

Ltac run_registration :=
  unfold registration_flow, settled,
    addDingzDevice, addMyStromSwitchDevice, addMyStromLightbulbDevice,
    getDingzDeviceInfo, getMyStromDeviceInfo, fetch, then_, ToBoolean,
    addDingzDevice_then, addMyStromSwitchDevice_then,
    addMyStromLightbulbDevice_then,
    bind, ret, throw, effect, get_accessories, set_accessory;
  cbn [settle negb fst snd].

Section RegistrationProperties.

Variable generate : string -> string.

(** C2, as the code has it.  When the descriptor's type is outside the set
    the entry point accepts, the entry point has already returned [true] to
    its caller: the [InvalidTypeError] is thrown in the callback and rejects
    only the promise the entry point left behind, which is neither returned
    nor awaited.  So the registration does not fail for whoever called it.
    Up to the rejection the flow has logged and sent its request and nothing
    else: no handler is constructed and the registry is the one it started
    with. *)
Theorem type_validation_rejects_mismatches address name token st :
  (forall info,
      ~ In (ms_type info) lightbulb_types ->
      exists st',
        registration_flow
          (addMyStromLightbulbDevice generate address name token)
          (Some info) st
        = (Return (true,
                   Throw (InvalidTypeError
                            (default "Unidentified myStrom Lightbulb/LED" name)
                            address (ms_type info))), st') /\
        accessories st' = accessories st /\
        trace st' =
          (trace st ++
             [Log Debug "Add configured/discovered device ->";
              HttpRequest ("http://" ++ address ++ "/api/v1/info")
                (default "" token)])%list) /\
  (forall info,
      ~ In (ms_type info) switch_types ->
      exists st',
        registration_flow
          (addMyStromSwitchDevice generate address name token)
          (Some info) st
        = (Return (true,
                   Throw (InvalidTypeError
                            (default "Unidentified myStrom Switch" name)
                            address (ms_type info))), st') /\
        accessories st' = accessories st /\
        trace st' =
          (trace st ++
             [Log Debug "Add configured/discovered device ->";
              HttpRequest ("http://" ++ address ++ "/info")
                (default "" token)])%list) /\
  (forall mac info rest,
      ~ In (dz_type info) dingz_types ->
      exists st',
        registration_flow
          (addDingzDevice generate address name token)
          (Some ((mac, info) :: rest)) st
        = (Return (true,
                   Throw (InvalidTypeError
                            (default "Unnamed DingzDa Device" name)
                            address (dz_type info))), st') /\
        accessories st' = accessories st /\
        trace st' =
          (trace st ++
             [Log Debug "Add configured device ->";
              HttpRequest ("http://" ++ address ++ "/api/v1/device")
                (default "" token);
              Log Debug "Got Device ->"])%list).
Proof.
  repeat split.
  - intros info Hout.
    apply (rejected_iff_not_accepted _ _ (lightbulb_types_check _)) in Hout.
    run_registration. rewrite Hout. cbn.
    eexists. split; [reflexivity|]. cbn.
    split; [reflexivity|]. now rewrite <- app_assoc.
  - intros info Hout.
    apply (rejected_iff_not_accepted _ _ (switch_types_check _)) in Hout.
    run_registration. rewrite Hout. cbn.
    eexists. split; [reflexivity|]. cbn.
    split; [reflexivity|]. now rewrite <- app_assoc.
  - intros mac info rest Hout.
    apply (rejected_iff_not_accepted _ _ (dingz_types_check _)) in Hout.
    run_registration. rewrite Hout. cbn.
    eexists. split; [reflexivity|]. cbn.
    split; [reflexivity|]. now rewrite <- !app_assoc.
Qed.

(** C4, as the code has it.  When the device never answers, the entry point
    has already returned [true] (the test [!success] is made on the promise,
    which is an object and so never falsy), and the promise is fulfilled
    with [undefined]: no [DeviceNotReachableError] is raised, in the call or
    in the promise, by any of the three entry points. *)
Theorem unanswered_registration_reports_success address name token st :
  (exists st',
      registration_flow (addDingzDevice generate address name token) None st
      = (Return (true, Return None), st') /\
      accessories st' = accessories st) /\
  (exists st',
      registration_flow
        (addMyStromSwitchDevice generate address name token) None st
      = (Return (true, Return None), st') /\
      accessories st' = accessories st) /\
  (exists st',
      registration_flow
        (addMyStromLightbulbDevice generate address name token) None st
      = (Return (true, Return None), st') /\
      accessories st' = accessories st).
Proof.
  repeat split; run_registration; cbn; eexists; split; reflexivity.
Qed.

(** The call of an entry point returns [true] whatever the platform state
    is: its only effects are a log line and the request. *)
Lemma entry_points_return_true address name token st :
  (exists success st',
      addDingzDevice generate address name token st
      = (Return (true, success), st') /\
      accessories st' = accessories st) /\
  (exists success st',
      addMyStromSwitchDevice generate address name token st
      = (Return (true, success), st') /\
      accessories st' = accessories st) /\
  (exists success st',
      addMyStromLightbulbDevice generate address name token st
      = (Return (true, success), st') /\
      accessories st' = accessories st).
Proof.
  split; [|split]; run_registration; cbn;
    eexists; eexists; split; reflexivity.
Qed.

End RegistrationProperties.

Lemma type_validation_rejects_mismatches_witness :
  exists st',
    registration_flow
      (addMyStromLightbulbDevice sample_generate "192.168.1.20" None None)
      (Some sample_switch_info) initial_platform
    = (Return (true,
               Throw (InvalidTypeError "Unidentified myStrom Lightbulb/LED"
                        "192.168.1.20" (TNum 107))), st') /\
    accessories st' = accessories initial_platform /\
    trace st' =
      (trace initial_platform ++
         [Log Debug "Add configured/discovered device ->";
          HttpRequest "http://192.168.1.20/api/v1/info" ""])%list.
Proof.
  apply (proj1 (type_validation_rejects_mismatches sample_generate
                  "192.168.1.20" None None initial_platform)
           sample_switch_info).
  unfold lightbulb_types. simpl. intuition discriminate.
Defined.

Section IdempotentRegistration.

Variable generate : string -> string.

Ltac known_or_unknown uuid :=
  let E := fresh "E" in
  destruct (accessories _ !! uuid) as [existing|] eqn:E; cbn;
  [ rewrite E | rewrite lookup_insert_eq ];
  cbn;
  (split; [reflexivity|]); (split; [reflexivity|]);
  eexists; eexists;
  (split; [reflexivity|]);
  (split; [first [ apply dom_insert_L
                 | apply elem_of_dom_2 in E; symmetry;
                   apply subseteq_union_1_L, singleton_subseteq_l; exact E ]|]);
  (split; [reflexivity|]);
  (split; [rewrite <- ?app_assoc; reflexivity|]);
  (split; [cbn; lia|]);
  rewrite <- ?app_assoc; reflexivity.

Lemma addDingzDevice_twice st a1 n1 t1 a2 n2 t2 mac1 info1 rest1 mac2 info2 rest2 :
  In (dz_type info1) dingz_types ->
  In (dz_type info2) dingz_types ->
  generate (toUpperCase mac1) = generate (toUpperCase mac2) ->
  registered_once
    (registration_flow (addDingzDevice generate a1 n1 t1)
       (Some ((mac1, info1) :: rest1)))
    (registration_flow (addDingzDevice generate a2 n2 t2)
       (Some ((mac2, info2) :: rest2)))
    (generate (toUpperCase mac1))
    (fun existing =>
       [Log Debug "Add configured device ->";
        HttpRequest ("http://" ++ a2 ++ "/api/v1/device") (default "" t2);
        Log Debug "Got Device ->";
        Log Warn "Accessory already initialized";
        Emit UPDATE_INFO [AHandle existing];
        Identify existing])
    st.
Proof.
  intros H1 H2 Hid.
  apply dingz_types_check in H1, H2.
  unfold registered_once. run_registration.
  rewrite H1, H2. cbn. rewrite <- Hid.
  known_or_unknown (generate (toUpperCase mac1)).
Qed.

Lemma addMyStromSwitchDevice_twice st a1 n1 t1 a2 n2 t2 info1 info2 :
  In (ms_type info1) switch_types ->
  In (ms_type info2) switch_types ->
  generate (toUpperCase (ms_mac info1))
    = generate (toUpperCase (ms_mac info2)) ->
  registered_once
    (registration_flow (addMyStromSwitchDevice generate a1 n1 t1)
       (Some info1))
    (registration_flow (addMyStromSwitchDevice generate a2 n2 t2)
       (Some info2))
    (generate (toUpperCase (ms_mac info1)))
    (fun existing =>
       [Log Debug "Add configured/discovered device ->";
        HttpRequest ("http://" ++ a2 ++ "/info") (default "" t2);
        Log Warn "Accessory already initialized";
        Identify existing])
    st.
Proof.
  intros H1 H2 Hid.
  apply switch_types_check in H1, H2.
  unfold registered_once. run_registration.
  rewrite H1, H2. cbn. rewrite <- Hid.
  known_or_unknown (generate (toUpperCase (ms_mac info1))).
Qed.

Lemma addMyStromLightbulbDevice_twice st a1 n1 t1 a2 n2 t2 info1 info2 :
  In (ms_type info1) lightbulb_types ->
  In (ms_type info2) lightbulb_types ->
  generate (toUpperCase (ms_mac info1))
    = generate (toUpperCase (ms_mac info2)) ->
  registered_once
    (registration_flow (addMyStromLightbulbDevice generate a1 n1 t1)
       (Some info1))
    (registration_flow (addMyStromLightbulbDevice generate a2 n2 t2)
       (Some info2))
    (generate (toUpperCase (ms_mac info1)))
    (fun existing =>
       [Log Debug "Add configured/discovered device ->";
        HttpRequest ("http://" ++ a2 ++ "/api/v1/info") (default "" t2);
        Log Warn "Accessory already initialized";
        Identify existing])
    st.
Proof.
  intros H1 H2 Hid.
  apply lightbulb_types_check in H1, H2.
  unfold registered_once. run_registration.
  rewrite H1, H2. cbn. rewrite <- Hid.
  known_or_unknown (generate (toUpperCase (ms_mac info1))).
Qed.

(** C1, as the code has it.  Two registration flows for devices of the same
    identity leave one registry entry for it: both succeed, at most one
    handler is constructed, and the second flow finds the entry, constructs
    nothing, and calls [identify] on the handler it found.  The
    [UPDATE_INFO] event is published by the dingz entry point only; the
    switch and lightbulb entry points publish nothing. *)
Theorem idempotent_registration st a1 n1 t1 a2 n2 t2 :
  (forall mac1 info1 rest1 mac2 info2 rest2,
      In (dz_type info1) dingz_types ->
      In (dz_type info2) dingz_types ->
      generate (toUpperCase mac1) = generate (toUpperCase mac2) ->
      registered_once
        (registration_flow (addDingzDevice generate a1 n1 t1)
           (Some ((mac1, info1) :: rest1)))
        (registration_flow (addDingzDevice generate a2 n2 t2)
           (Some ((mac2, info2) :: rest2)))
        (generate (toUpperCase mac1))
        (fun existing =>
           [Log Debug "Add configured device ->";
            HttpRequest ("http://" ++ a2 ++ "/api/v1/device")
              (default "" t2);
            Log Debug "Got Device ->";
            Log Warn "Accessory already initialized";
            Emit UPDATE_INFO [AHandle existing];
            Identify existing])
        st) /\
  (forall info1 info2,
      In (ms_type info1) switch_types ->
      In (ms_type info2) switch_types ->
      generate (toUpperCase (ms_mac info1))
        = generate (toUpperCase (ms_mac info2)) ->
      registered_once
        (registration_flow (addMyStromSwitchDevice generate a1 n1 t1)
           (Some info1))
        (registration_flow (addMyStromSwitchDevice generate a2 n2 t2)
           (Some info2))
        (generate (toUpperCase (ms_mac info1)))
        (fun existing =>
           [Log Debug "Add configured/discovered device ->";
            HttpRequest ("http://" ++ a2 ++ "/info") (default "" t2);
            Log Warn "Accessory already initialized";
            Identify existing])
        st) /\
  (forall info1 info2,
      In (ms_type info1) lightbulb_types ->
      In (ms_type info2) lightbulb_types ->
      generate (toUpperCase (ms_mac info1))
        = generate (toUpperCase (ms_mac info2)) ->
      registered_once
        (registration_flow (addMyStromLightbulbDevice generate a1 n1 t1)
           (Some info1))
        (registration_flow (addMyStromLightbulbDevice generate a2 n2 t2)
           (Some info2))
        (generate (toUpperCase (ms_mac info1)))
        (fun existing =>
           [Log Debug "Add configured/discovered device ->";
            HttpRequest ("http://" ++ a2 ++ "/api/v1/info") (default "" t2);
            Log Warn "Accessory already initialized";
            Identify existing])
        st).
Proof.
  split; [|split]; intros.
  - now apply addDingzDevice_twice.
  - now apply addMyStromSwitchDevice_twice.
  - now apply addMyStromLightbulbDevice_twice.
Qed.

End IdempotentRegistration.

Lemma idempotent_registration_witness :
  registered_once
    (registration_flow
       (addDingzDevice sample_generate "192.168.1.30" (Some "Hall") None)
       (Some sample_dingz_devices))
    (registration_flow
       (addDingzDevice sample_generate "192.168.1.30" (Some "Hall") None)
       (Some sample_dingz_devices))
    (sample_generate "F008D1C4AABB")
    (fun existing =>
       [Log Debug "Add configured device ->";
        HttpRequest "http://192.168.1.30/api/v1/device" "";
        Log Debug "Got Device ->";
        Log Warn "Accessory already initialized";
        Emit UPDATE_INFO [AHandle existing];
        Identify existing])
    initial_platform /\
  registered_once
    (registration_flow
       (addMyStromSwitchDevice sample_generate "192.168.1.20" (Some "Plug")
          None)
       (Some sample_switch_info))
    (registration_flow
       (addMyStromSwitchDevice sample_generate "192.168.1.20" (Some "Plug")
          None)
       (Some sample_switch_info))
    (sample_generate "AABBCCDDEEFF")
    (fun existing =>
       [Log Debug "Add configured/discovered device ->";
        HttpRequest "http://192.168.1.20/info" "";
        Log Warn "Accessory already initialized";
        Identify existing])
    initial_platform /\
  registered_once
    (registration_flow
       (addMyStromLightbulbDevice sample_generate "192.168.1.21"
          (Some "Lamp") None)
       (Some sample_bulb_info))
    (registration_flow
       (addMyStromLightbulbDevice sample_generate "192.168.1.21"
          (Some "Lamp") None)
       (Some sample_bulb_info))
    (sample_generate "A1B2C3D4E5F6")
    (fun existing =>
       [Log Debug "Add configured/discovered device ->";
        HttpRequest "http://192.168.1.21/api/v1/info" "";
        Log Warn "Accessory already initialized";
        Identify existing])
    initial_platform.
Proof.
  split; [|split].
  - apply (proj1 (idempotent_registration sample_generate initial_platform
                    "192.168.1.30" (Some "Hall") None
                    "192.168.1.30" (Some "Hall") None)
             "F008D1C4AABB" {| dz_type := TStr "dingz"; puck_hw_model := None |}
             [] "F008D1C4AABB"
             {| dz_type := TStr "dingz"; puck_hw_model := None |} []);
      [left; reflexivity | left; reflexivity | reflexivity].
  - apply (proj1 (proj2 (idempotent_registration sample_generate
                           initial_platform "192.168.1.20" (Some "Plug") None
                           "192.168.1.20" (Some "Plug") None))
             sample_switch_info sample_switch_info);
      [unfold switch_types; simpl; tauto
      | unfold switch_types; simpl; tauto
      | reflexivity].
  - apply (proj2 (proj2 (idempotent_registration sample_generate
                           initial_platform "192.168.1.21" (Some "Lamp") None
                           "192.168.1.21" (Some "Lamp") None))
             sample_bulb_info sample_bulb_info);
      [left; reflexivity | left; reflexivity | reflexivity].
Defined.

(** C1 as stated fails for a myStrom switch: the second registration flow
    finds the entry and calls [identify], and the whole trace of the two
    flows holds no [UPDATE_INFO] event. *)
Lemma idempotent_registration_counterexample :
  let flow :=
    registration_flow
      (addMyStromSwitchDevice sample_generate "192.168.1.20" (Some "Plug")
         None)
      (Some sample_switch_info) in
  let st1 := snd (flow initial_platform) in
  let st2 := snd (flow st1) in
  fst (flow st1) = Return (true, Return (Some true)) /\
  (exists existing,
      accessories st1 !! "uuid-AABBCCDDEEFF" = Some existing /\
      trace st2 =
        (trace st1 ++
           [Log Debug "Add configured/discovered device ->";
            HttpRequest "http://192.168.1.20/info" "";
            Log Warn "Accessory already initialized";
            Identify existing])%list) /\
  List.filter is_update_info (trace st2) = [].
Proof. vm_compute. repeat split. eexists. split; reflexivity. Qed.

(** ** Resilience policies *)

Module PolicyFacts.

Import Policy.

Section FailingOperation.

Context {A : Type}.
Variable err : nat -> Error.
Variable delay : nat -> Z.

Lemma breaker_execute_closed_failing s :
  circuit s = Closed ->
  breaker_execute (@always_failing A err) s =
    (Throw (err (invocations s)),
     let circuit' :=
       if (threshold <=? S (failures s))%nat then Open (now s) else Closed in
     {| circuit := circuit'; failures := S (failures s);
        invocations := S (invocations s); now := now s;
        history := (history s ++
          [{| at_time := now s; before := Closed; invoked := true;
              after := circuit' |}])%list |}).
Proof.
  intros Hc. unfold breaker_execute, always_failing, handleAll. rewrite Hc.
  reflexivity.
Qed.

(** A pass of the failing operation through an open breaker: turned away
    while the breaker cools down, a trial that opens it again afterwards. *)
Lemma breaker_execute_open_failing s t :
  circuit s = Open t ->
  breaker_execute (@always_failing A err) s =
    if now s - t <? halfOpenAfter
    then
      (Throw BrokenCircuitError,
       {| circuit := Open t; failures := failures s;
          invocations := invocations s; now := now s;
          history := (history s ++
            [{| at_time := now s; before := Open t; invoked := false;
                after := Open t |}])%list |})
    else
      (Throw (err (invocations s)),
       {| circuit := Open (now s); failures := failures s;
          invocations := S (invocations s); now := now s;
          history := (history s ++
            [{| at_time := now s; before := Open t; invoked := true;
                after := Open (now s) |}])%list |}).
Proof.
  intros Hc. unfold breaker_execute, always_failing, handleAll. rewrite Hc.
  destruct (now s - t <? halfOpenAfter); reflexivity.
Qed.

Lemma breaker_execute_failing_throws s :
  exists e, fst (breaker_execute (@always_failing A err) s) = Throw e.
Proof.
  unfold breaker_execute, always_failing.
  destruct (circuit s) as [|t]; [eexists; reflexivity|].
  destruct (now s - t <? halfOpenAfter); eexists; reflexivity.
Qed.

Lemma retry_loop_failing_throws fuel k s :
  exists e, fst (retry_loop (@always_failing A err) delay fuel k s) = Throw e.
Proof.
  revert k s. induction fuel as [|fuel IH]; intros k s; simpl;
    destruct (breaker_execute_failing_throws s) as [e He];
    destruct (breaker_execute (@always_failing A err) s) as [r s']; simpl in He; subst r;
    unfold handleAll; simpl; eauto.
Qed.

(** The loop after [k] failed attempts is the loop started in the state
    those attempts left, with [k] retries less. *)
Lemma retry_loop_after_attempts k :
  forall fuel attempt s,
    (k <= fuel)%nat ->
    retry_loop (@always_failing A err) delay fuel attempt s =
    retry_loop (@always_failing A err) delay (fuel - k) (attempt + k)
      (after_attempts (@always_failing A err) delay k attempt s).
Proof.
  induction k as [|k IH]; intros fuel attempt s Hk.
  - simpl. now rewrite Nat.sub_0_r, Nat.add_0_r.
  - destruct fuel as [|fuel]; [lia|].
    destruct (breaker_execute_failing_throws s) as [e He].
    cbn [retry_loop after_attempts].
    destruct (breaker_execute (@always_failing A err) s) as [r s1].
    simpl in He. subst r. unfold handleAll. cbn [snd].
    rewrite (IH fuel (S attempt)) by lia.
    now replace (S attempt + k)%nat with (attempt + S k)%nat by lia.
Qed.

Lemma after_attempts_last k :
  forall attempt s,
    after_attempts (@always_failing A err) delay (S k) attempt s =
    wait (delay (attempt + k))
      (snd (breaker_execute (@always_failing A err)
              (after_attempts (@always_failing A err) delay k attempt s))).
Proof.
  induction k as [|k IH]; intros attempt s.
  - simpl. now rewrite Nat.add_0_r.
  - change (after_attempts (@always_failing A err) delay (S (S k)) attempt s)
      with (after_attempts (@always_failing A err) delay (S k) (S attempt)
              (wait (delay attempt)
                 (snd (breaker_execute (@always_failing A err) s)))).
    rewrite IH.
    now replace (S attempt + k)%nat with (attempt + S k)%nat by lia.
Qed.

(** As long as fewer than [threshold] failures have been counted, the
    breaker stays closed and every attempt invokes the operation. *)
Lemma after_attempts_closed j :
  forall attempt s,
    circuit s = Closed ->
    (failures s + j < threshold)%nat ->
    let sj := after_attempts (@always_failing A err) delay j attempt s in
    circuit sj = Closed /\
    failures sj = (failures s + j)%nat /\
    invocations sj = (invocations s + j)%nat /\
    exists pre,
      history sj = (history s ++ pre)%list /\
      length pre = j /\
      Forall (fun a => before a = Closed /\ invoked a = true /\
                       after a = Closed) pre.
Proof.
  induction j as [|j IH]; intros attempt s Hc Hf; cbv zeta.
  - simpl. repeat split; try lia; auto.
    exists []. rewrite app_nil_r. repeat split; auto.
  - cbn [after_attempts].
    rewrite (breaker_execute_closed_failing s Hc). cbv zeta. cbn [snd].
    replace (threshold <=? S (failures s))%nat with false
      by (symmetry; apply Nat.leb_gt; lia).
    match goal with
    | |- context [after_attempts _ _ j (S attempt) ?s1] =>
        destruct (IH (S attempt) s1) as (Hc' & Hf' & Hi' & pre & Hh & Hl & Hp);
          [reflexivity | simpl; lia |]
    end.
    cbv zeta in Hc', Hf', Hi', Hh. simpl in Hf', Hi', Hh.
    repeat split; try assumption; try lia.
    eexists ({| at_time := now s; before := Closed; invoked := true;
                after := Closed |} :: pre).
    rewrite Hh, <- app_assoc. simpl.
    repeat split; auto.
Qed.

(** Once open, the breaker never closes under the failing operation: an
    attempt is either turned away or a trial that opens it again. *)
Lemma open_run_stays_open fuel :
  forall attempt s t,
    circuit s = Open t ->
    let run := retry_loop (@always_failing A err) delay fuel attempt s in
    exists e t' post,
      fst run = Throw e /\
      (e = BrokenCircuitError \/ e = err (pred (invocations (snd run)))) /\
      circuit (snd run) = Open t' /\
      failures (snd run) = failures s /\
      history (snd run) = (history s ++ post)%list /\
      invocations (snd run)
        = (invocations s + length (List.filter invoked post))%nat /\
      List.filter invoked_while_closed post = [] /\
      Forall rejected_while_open post.
Proof.
  induction fuel as [|fuel IH]; intros attempt s t Hc; cbv zeta;
    cbn [retry_loop]; rewrite (breaker_execute_open_failing s t Hc);
    destruct (now s - t <? halfOpenAfter) eqn:Hw; unfold handleAll.
  - exists BrokenCircuitError, t,
      [{| at_time := now s; before := Open t; invoked := false;
          after := Open t |}].
    simpl. repeat split; auto; try lia.
    constructor; [|constructor].
    intros t0 Ht _. simpl in Ht. injection Ht as <-. split; reflexivity.
  - exists (err (invocations s)), (now s),
      [{| at_time := now s; before := Open t; invoked := true;
          after := Open (now s) |}].
    simpl. repeat split; auto; try lia.
    constructor; [|constructor].
    intros t0 Ht Hlt. simpl in Ht, Hlt. injection Ht as <-.
    apply Z.ltb_ge in Hw. lia.
  - match goal with
    | |- context [retry_loop _ _ fuel (S attempt) ?s1] =>
        destruct (IH (S attempt) s1 t eq_refl)
          as (e & t' & post & He & Hor & Hc' & Hf' & Hh & Hi & Hn & Hr)
    end.
    cbv zeta in He, Hor, Hc', Hf', Hh, Hi. simpl in Hf', Hh, Hi.
    exists e, t',
      ({| at_time := now s; before := Open t; invoked := false;
          after := Open t |} :: post).
    rewrite Hh, <- app_assoc. simpl.
    repeat split; auto.
    constructor; [|exact Hr].
    intros t0 Ht _. simpl in Ht. injection Ht as <-. split; reflexivity.
  - match goal with
    | |- context [retry_loop _ _ fuel (S attempt) ?s1] =>
        destruct (IH (S attempt) s1 (now s) eq_refl)
          as (e & t' & post & He & Hor & Hc' & Hf' & Hh & Hi & Hn & Hr)
    end.
    cbv zeta in He, Hor, Hc', Hf', Hh, Hi. simpl in Hf', Hh, Hi.
    exists e, t',
      ({| at_time := now s; before := Open t; invoked := true;
          after := Open (now s) |} :: post).
    rewrite Hh, <- app_assoc. simpl.
    repeat split; auto; try lia.
    constructor; [|exact Hr].
    intros t0 Ht Hlt. simpl in Ht, Hlt. injection Ht as <-.
    apply Z.ltb_ge in Hw. lia.
Qed.

(** From a closed breaker that lacks [S d] failures to the threshold, the
    execution reaches, after [S d] attempts that all invoke the operation,
    a state in which the breaker has just been opened. *)
Lemma closed_run_reaches_open d s :
  circuit s = Closed ->
  (S (failures s + d) = threshold)%nat ->
  let opened := after_attempts (@always_failing A err) delay (S d) 0 s in
  exists t pre,
    retryWithBreaker_execute (@always_failing A err) delay s =
      retry_loop (@always_failing A err) delay (maxAttempts - S d) (S d)
        opened /\
    opened =
      {| circuit := Open t; failures := threshold;
         invocations := invocations s + S d; now := t + delay d;
         history := (history s ++ pre ++
           [{| at_time := t; before := Closed; invoked := true;
               after := Open t |}])%list |} /\
    length pre = d /\
    Forall (fun a => before a = Closed /\ invoked a = true /\
                     after a = Closed) pre.
Proof.
  intros Hc Hd opened.
  destruct (after_attempts_closed d 0%nat s Hc)
    as (Hcd & Hfd & Hid & pre & Hhd & Hld & Hpre); [lia|].
  cbv zeta in Hcd, Hfd, Hid, Hhd.
  exists (now (after_attempts (@always_failing A err) delay d 0 s)), pre.
  split.
  { unfold opened, retryWithBreaker_execute.
    rewrite (retry_loop_after_attempts (S d) maxAttempts 0 s);
      [reflexivity|].
    unfold threshold in Hd. unfold maxAttempts. lia. }
  split; [|split; assumption].
  unfold opened. rewrite after_attempts_last.
  rewrite (breaker_execute_closed_failing _ Hcd). cbv zeta. cbn [snd].
  rewrite Hfd, Hid, Hhd.
  replace (threshold <=? S (failures s + d))%nat with true
    by (symmetry; apply Nat.leb_le; lia).
  unfold wait. cbn. rewrite <- app_assoc.
  f_equal; lia.
Qed.

(** An execution that finds the breaker closed invokes the failing
    operation at least until the breaker opens, and ends in a failure. *)
Lemma failing_run_invocations s :
  circuit s = Closed ->
  (failures s < threshold)%nat ->
  (invocations s + (threshold - failures s)
   <= invocations
        (snd (retryWithBreaker_execute (@always_failing A err) delay s)))%nat.
Proof.
  intros Hc Hf.
  destruct (closed_run_reaches_open (threshold - S (failures s)) s Hc)
    as (t & pre & Hrun & Hopened & _); [lia|].
  cbv zeta in Hrun, Hopened. rewrite Hrun.
  match goal with
  | |- context [retry_loop _ _ ?fuel ?k ?opened] =>
      destruct (open_run_stays_open fuel k opened t)
        as (_ & _ & post & _ & _ & _ & _ & _ & Hi & _);
        [now rewrite Hopened|]
  end.
  cbv zeta in Hi. rewrite Hi, Hopened. cbn [invocations]. lia.
Qed.

End FailingOperation.

(** The policies look at the fact of a failure, never at its kind: two
    operations that fail every time drive the policy through the same
    states, whatever errors they fail with. *)
Lemma retry_loop_ignores_error_kind {A : Type} (err1 err2 : nat -> Error)
    (delay : nat -> Z) fuel :
  forall attempt s,
    snd (retry_loop (@always_failing A err1) delay fuel attempt s) =
    snd (retry_loop (@always_failing A err2) delay fuel attempt s).
Proof.
  induction fuel as [|fuel IH]; intros attempt s; cbn [retry_loop];
    unfold breaker_execute, always_failing, handleAll;
    destruct (circuit s) as [|t]; cbn;
    try destruct (now s - t <? halfOpenAfter); cbn; auto.
Qed.


Section AnyOperation.

Context {A : Type}.
Variable op : nat -> Completion A.
Variable delay : nat -> Z.


(** An operation that returns is invoked once by an execution that finds
    the breaker closed. *)
Lemma retryWithBreaker_execute_returns s a :
  circuit s = Closed ->
  op (invocations s) = Return a ->
  retryWithBreaker_execute op delay s =
    (Return a,
     {| circuit := Closed; failures := 0;
        invocations := S (invocations s); now := now s;
        history := (history s ++
          [{| at_time := now s; before := Closed; invoked := true;
              after := Closed |}])%list |}).
Proof.
  intros Hc Hop. unfold retryWithBreaker_execute, maxAttempts.
  cbn [retry_loop]. unfold breaker_execute. rewrite Hc, Hop. reflexivity.
Qed.

End AnyOperation.

End PolicyFacts.

Module PolicyProperties.

Import Policy PolicyFacts.



(** Whatever the platform state, the operation an entry point is to the
    policy completes with [true]. *)
Lemma as_operation_returns_true (generate : string -> string)
    (address : string) (name token : option string)
    (states : nat -> Platform) (n : nat) :
  as_operation (addDingzDevice generate address name token) states n
    = Return true /\
  as_operation (addMyStromSwitchDevice generate address name token) states n
    = Return true /\
  as_operation (addMyStromLightbulbDevice generate address name token)
    states n = Return true.
Proof.
  destruct (entry_points_return_true generate address name token (states n))
    as ((p1 & st1 & H1 & _) & (p2 & st2 & H2 & _) & (p3 & st3 & H3 & _)).
  unfold as_operation. rewrite H1, H2, H3. repeat split.
Qed.

(** C3, as the code has it.  Both policies are built with [handleAll]: no
    error kind is left out.  The kind of the error plays no part in what
    the policies do: two operations that fail every time drive the composed
    policy through the same states whatever they fail with, and from a
    fresh breaker each is invoked at least five times before the execution
    ends in a failure.  A registration is not retried all the same: the
    entry point handed to the policy completes with [true] in every
    platform state, so whatever the device answers later, an execution that
    finds the breaker closed invokes it exactly once, reports [true] and
    leaves the breaker closed with no failure counted. *)
Theorem retry_handles_every_error (generate : string -> string)
    (address : string) (name token : option string)
    (states : nat -> Platform) (delay : nat -> Z) (s : PolicyState) :
  circuit s = Closed ->
  let invoked_once :=
    (Return true,
     {| circuit := Closed; failures := 0;
        invocations := S (invocations s); now := now s;
        history := (history s ++
          [{| at_time := now s; before := Closed; invoked := true;
              after := Closed |}])%list |}) in
  (forall e, handleAll e = true) /\
  (forall (A : Type) (err1 err2 : nat -> Error) (s0 : PolicyState),
     snd (retryWithBreaker_execute (@always_failing A err1) delay s0) =
     snd (retryWithBreaker_execute (@always_failing A err2) delay s0)) /\
  (forall (A : Type) (err : nat -> Error) (t0 : Z),
     let run :=
       retryWithBreaker_execute (@always_failing A err) delay (fresh t0) in
     (5 <= invocations (snd run))%nat /\ exists e, fst run = Throw e) /\
  retryWithBreaker_execute
    (as_operation (addDingzDevice generate address name token) states)
    delay s = invoked_once /\
  retryWithBreaker_execute
    (as_operation (addMyStromSwitchDevice generate address name token) states)
    delay s = invoked_once /\
  retryWithBreaker_execute
    (as_operation (addMyStromLightbulbDevice generate address name token)
       states)
    delay s = invoked_once.
Proof.
  intros Hc invoked_once.
  destruct (as_operation_returns_true generate address name token states
              (invocations s)) as (H1 & H2 & H3).
  split; [reflexivity|].
  split; [intros A err1 err2 s0; apply retry_loop_ignores_error_kind|].
  split.
  { intros A err t0 run. split.
    - apply (failing_run_invocations (A := A) err delay (fresh t0));
        [reflexivity | unfold threshold; simpl; lia].
    - apply retry_loop_failing_throws. }
  repeat split; apply retryWithBreaker_execute_returns; assumption.
Qed.

Lemma retry_handles_every_error_witness :
  let s := fresh 0 in
  let states := fun _ : nat => initial_platform in
  let invoked_once :=
    (Return true,
     {| circuit := Closed; failures := 0;
        invocations := S (invocations s); now := now s;
        history := (history s ++
          [{| at_time := now s; before := Closed; invoked := true;
              after := Closed |}])%list |}) in
  (forall e, handleAll e = true) /\
  (forall (A : Type) (err1 err2 : nat -> Error) (s0 : PolicyState),
     snd (retryWithBreaker_execute (@always_failing A err1) sample_delay s0) =
     snd (retryWithBreaker_execute (@always_failing A err2) sample_delay s0)) /\
  (forall (A : Type) (err : nat -> Error) (t0 : Z),
     let run :=
       retryWithBreaker_execute (@always_failing A err) sample_delay
         (fresh t0) in
     (5 <= invocations (snd run))%nat /\ exists e, fst run = Throw e) /\
  retryWithBreaker_execute
    (as_operation
       (addDingzDevice sample_generate "192.168.1.20" None None) states)
    sample_delay s = invoked_once /\
  retryWithBreaker_execute
    (as_operation
       (addMyStromSwitchDevice sample_generate "192.168.1.20" None None)
       states)
    sample_delay s = invoked_once /\
  retryWithBreaker_execute
    (as_operation
       (addMyStromLightbulbDevice sample_generate "192.168.1.20" None None)
       states)
    sample_delay s = invoked_once.
Proof.
  apply (retry_handles_every_error sample_generate "192.168.1.20" None None
           (fun _ => initial_platform) sample_delay (fresh 0)).
  reflexivity.
Defined.

(** C3 as stated fails on a registration the platform makes: the lightbulb
    entry point for a device that answers with type 107, executed under the
    composed policy from a fresh breaker.  The promise of the registration
    is rejected with an [InvalidTypeError], an error the policies' filter
    handles like any other; yet the execution surfaces no failure at all:
    it reports [true] after a single invocation. *)
Lemma retry_handles_every_error_counterexample :
  let entry :=
    addMyStromLightbulbDevice sample_generate "192.168.1.20" None None in
  let mismatch :=
    InvalidTypeError "Unidentified myStrom Lightbulb/LED" "192.168.1.20"
      (TNum 107) in
  let run :=
    retryWithBreaker_execute (as_operation entry (fun _ => initial_platform))
      sample_delay (fresh 0) in
  fst (registration_flow entry (Some sample_switch_info) initial_platform)
    = Return (true, Throw mismatch) /\
  handleAll mismatch = true /\
  fst run = Return true /\
  invocations (snd run) = 1%nat /\
  (forall e, fst run <> Throw e).
Proof. vm_compute. repeat split. intros e H. discriminate H. Qed.

End PolicyProperties.

(** * Further properties of the platform *)

(** ** Rendering bytes *)

Lemma toUpperCase_app (s t : string) :
  toUpperCase (s ++ t) = toUpperCase s ++ toUpperCase t.
Proof.
  induction s as [|c r IH]; [reflexivity|].
  change (String c r ++ t) with (String c (r ++ t)).
  simpl. rewrite IH. reflexivity.
Qed.

Lemma string_app_assoc (s t u : string) : (s ++ t) ++ u = s ++ (t ++ u).
Proof.
  induction s as [|c r IH]; [reflexivity|].
  change (String c r ++ t) with (String c (r ++ t)).
  change (String c (r ++ t) ++ u) with (String c ((r ++ t) ++ u)).
  change (String c r ++ (t ++ u)) with (String c (r ++ (t ++ u))).
  now rewrite IH.
Qed.

Lemma hex_loop_acc (bytes : list Z) (acc : string) :
  hex_loop bytes acc = acc ++ hex_loop bytes "".
Proof.
  revert acc. induction bytes as [|b rest IH]; intros acc; simpl.
  - induction acc as [|c r IHr]; [reflexivity|].
    change (String c r ++ "") with (String c (r ++ "")). now rewrite <- IHr.
  - rewrite (IH (acc ++ byte_hex b)), (IH ("" ++ byte_hex b)).
    change ("" ++ byte_hex b) with (byte_hex b).
    apply string_app_assoc.
Qed.

Lemma byteToHexString_cons (b : Z) (rest : list Z) :
  byteToHexString (b :: rest)
  = toUpperCase (byte_hex b) ++ byteToHexString rest.
Proof.
  unfold byteToHexString. simpl.
  rewrite hex_loop_acc, toUpperCase_app. reflexivity.
Qed.

Lemma land_255_range (b : Z) : 0 <= Z.land b 255 < 256.
Proof.
  split; [apply Z.land_nonneg; right; lia|].
  change 255 with (Z.ones 8). rewrite Z.land_ones by lia.
  apply Z.mod_pos_bound. lia.
Qed.

(** What holds of the rendering of every value from 0 to 255 holds of the
    rendering of every byte. *)
Lemma byte_hex_cases (P : Z -> string -> bool) :
  forallb
    (fun v => P v (toUpperCase
                     (let hex := toString16 (Z.to_N v) in
                      if (String.length hex =? 1)%nat
                      then "0" ++ hex else hex)))
    (map Z.of_nat (seq 0 256)) = true ->
  forall b, P (Z.land b 255) (toUpperCase (byte_hex b)) = true.
Proof.
  intros Hall b. rewrite forallb_forall in Hall.
  apply (Hall (Z.land b 255)).
  pose proof (land_255_range b) as Hr.
  apply in_map_iff. exists (Z.to_nat (Z.land b 255)). split; [lia|].
  apply in_seq. lia.
Qed.

Lemma byte_hex_decodes (b : Z) :
  exists h l,
    toUpperCase (byte_hex b) = String h (String l EmptyString) /\
    exists x y,
      hex_value h = Some x /\ hex_value l = Some y /\
      16 * x + y = Z.land b 255.
Proof.
  pose proof (byte_hex_cases
    (fun v s =>
       match s with
       | String h (String l EmptyString) =>
           match hex_value h, hex_value l with
           | Some x, Some y => 16 * x + y =? v
           | _, _ => false
           end
       | _ => false
       end)) as H.
  specialize (H ltac:(vm_compute; reflexivity) b). cbv beta in H.
  destruct (toUpperCase (byte_hex b)) as [|h [|l [|? ?]]]; try discriminate.
  exists h, l. split; [reflexivity|].
  destruct (hex_value h) as [x|]; [|discriminate].
  destruct (hex_value l) as [y|]; [|discriminate].
  exists x, y. repeat split. now apply Z.eqb_eq.
Qed.

(** X1. The string [byteToHexString] builds can be read back: it consists of
    two uppercase hexadecimal digits per byte, and decoding it returns the
    bytes (each taken modulo 256, as the loop's [& 0xff] does).  Byte
    sequences that differ therefore never share a string. *)
Theorem byteToHexString_round_trip (bytes : list Z) :
  hexToBytes (byteToHexString bytes)
  = Some (map (fun b => Z.land b 255) bytes).
Proof.
  induction bytes as [|b rest IH]; [reflexivity|].
  rewrite byteToHexString_cons.
  destruct (byte_hex_decodes b) as (h & l & Hs & x & y & Hx & Hy & Hv).
  rewrite Hs.
  change (String h (String l "") ++ byteToHexString rest)
    with (String h (String l (byteToHexString rest))).
  simpl. rewrite Hx, Hy, IH, Hv. reflexivity.
Qed.

(** ** The discovery listener on arbitrary datagrams *)

(** One datagram: what it adds to the trace and to the seen-set. *)
Lemma datagramMessageHandler_step msg remoteInfo st :
  exists st' e,
    datagramMessageHandler msg remoteInfo st = (Return tt, st') /\
    accessories st' = accessories st /\
    globalToken st' = globalToken st /\
    trace st' = (trace st ++ [e])%list /\
    ((is_execute e = false /\ discovered st' = discovered st) \/
     (discovered st !! byteToHexString (subarray 0 5 msg) = None /\
      discovered st'
      = <[byteToHexString (subarray 0 5 msg) := remoteInfo]> (discovered st))).
Proof.
  run_handler.
  destruct (negb (length msg =? 8)%nat); simpl.
  { eexists. eexists. repeat split. left. split; reflexivity. }
  destruct (discovered st !! byteToHexString _) eqn:E; simpl.
  { eexists. eexists. repeat split. left. split; reflexivity. }
  destruct (DeviceTypes_of_code (nth 6 msg 0)) as [[]|]; simpl;
    eexists; eexists; repeat split;
    first [ right; split; reflexivity | left; split; reflexivity ].
Qed.

(** X2. Whatever the datagram and whatever the state, the handler returns
    normally, adds exactly one entry to the trace (a log line or one
    registration handed to the policy), and leaves the accessory registry
    and the configured token as they were. *)
Theorem datagramMessageHandler_contained msg remoteInfo st :
  exists st' e,
    datagramMessageHandler msg remoteInfo st = (Return tt, st') /\
    trace st' = (trace st ++ [e])%list /\
    accessories st' = accessories st /\
    globalToken st' = globalToken st.
Proof.
  destruct (datagramMessageHandler_step msg remoteInfo st)
    as (st' & e & H & Ha & Hg & Ht & _).
  exists st', e. auto.
Qed.

Lemma discovery_session_step datagrams :
  forall st,
  exists st' added,
    discovery_session datagrams st = (Return tt, st') /\
    accessories st' = accessories st /\
    trace st' = (trace st ++ added)%list /\
    length added = length datagrams /\
    (length (List.filter is_execute added) + size (discovered st)
     <= size (discovered st'))%nat /\
    (forall key r,
        discovered st !! key = Some r -> discovered st' !! key = Some r).
Proof.
  induction datagrams as [|[msg ri] rest IH]; intros st; simpl.
  - exists st, []. rewrite app_nil_r. repeat split; auto.
  - unfold bind.
    destruct (datagramMessageHandler_step msg ri st)
      as (st1 & e & H & Ha & _ & Ht & Hd).
    rewrite H.
    destruct (IH st1) as (st' & added & Hs & Ha' & Ht' & Hl & Hsize & Hkeep).
    exists st', (e :: added). rewrite Hs, Ha', Ha, Ht', Ht, <- app_assoc.
    simpl. repeat split; auto.
    + destruct Hd as [[He Hd]|[Hnone Hd]].
      * rewrite He. rewrite Hd in Hsize. exact Hsize.
      * rewrite Hd, map_size_insert_None in Hsize by exact Hnone.
        destruct (is_execute e); simpl; lia.
    + intros key r Hk. apply Hkeep.
      destruct Hd as [[_ Hd]|[Hnone Hd]]; rewrite Hd; [exact Hk|].
      rewrite lookup_insert_ne; [exact Hk|]. congruence.
Qed.

(** X3. What the seen-set holds for a MAC is what the first datagram with
    that MAC put there: no later datagram of the session replaces or
    removes an entry. *)
Theorem discovery_session_keeps_first_seen datagrams st key r :
  discovered st !! key = Some r ->
  discovered (snd (discovery_session datagrams st)) !! key = Some r.
Proof.
  intros Hk.
  destruct (discovery_session_step datagrams st)
    as (st' & added & Hs & _ & _ & _ & _ & Hkeep).
  rewrite Hs. simpl. now apply Hkeep.
Qed.

Lemma discovery_session_keeps_first_seen_witness :
  let st1 :=
    snd (datagramMessageHandler switch_datagram sample_remote
           initial_platform) in
  discovered
    (snd (discovery_session
            [(switch_datagram, {| ri_address := "192.168.1.77";
                                  ri_port := 7979 |});
             (button_datagram, sample_remote)] st1))
    !! "AABBCCDDEE" = Some sample_remote.
Proof.
  apply (discovery_session_keeps_first_seen
           [(switch_datagram, {| ri_address := "192.168.1.77";
                                 ri_port := 7979 |});
            (button_datagram, sample_remote)]
           (snd (datagramMessageHandler switch_datagram sample_remote
                   initial_platform))
           "AABBCCDDEE" sample_remote).
  vm_compute. reflexivity.
Defined.

(** X4. In a discovery session every datagram leaves one trace entry, no
    exception ends the session, the accessory registry is not touched, and
    the registrations handed to the policy are at most as many as the MACs
    the session added to the seen-set. *)
Theorem discovery_session_registers_new_macs_only datagrams st :
  exists st' added,
    discovery_session datagrams st = (Return tt, st') /\
    accessories st' = accessories st /\
    trace st' = (trace st ++ added)%list /\
    length added = length datagrams /\
    (length (List.filter is_execute added) + size (discovered st)
     <= size (discovered st'))%nat.
Proof.
  destruct (discovery_session_step datagrams st)
    as (st' & added & Hs & Ha & Ht & Hl & Hsize & _).
  exists st', added. auto.
Qed.

Lemma DeviceTypes_of_code_None (t : Z) :
  t < 101 \/ 108 < t -> DeviceTypes_of_code t = None.
Proof.
  intros H. unfold DeviceTypes_of_code.
  repeat match goal with
         | |- context [?a =? ?b] =>
             destruct (Z.eqb_spec a b); [lia|]
         end.
  reflexivity.
Qed.

(** X5. The first 8-byte datagram of a MAC whose type code names a device
    family: for a switch (101, 106, 107), a bulb or LED strip (102, 105) or
    a dingz (108) exactly one registration is handed to the policy, for the
    matching entry point, addressed to the datagram's sender and carrying
    the global token, and the sender is stored under the MAC; for a
    push-button (103, 104) there is one debug line and nothing is stored. *)
Theorem fresh_announcement_routed msg remoteInfo st t :
  length msg = 8%nat ->
  discovered st !! byteToHexString (subarray 0 5 msg) = None ->
  DeviceTypes_of_code (nth 6 msg 0) = Some t ->
  exists st',
    datagramMessageHandler msg remoteInfo st = (Return tt, st') /\
    match family_entry t with
    | Some entry =>
        (exists name,
            trace st' =
              (trace st ++
                 [Execute {| c_entry := entry;
                             c_address := ri_address remoteInfo;
                             c_name := name;
                             c_token := globalToken st |}])%list) /\
        discovered st'
        = <[byteToHexString (subarray 0 5 msg) := remoteInfo]> (discovered st)
    | None =>
        (exists message, trace st' = (trace st ++ [Log Debug message])%list) /\
        discovered st' = discovered st
    end.
Proof.
  intros Hlen Hnew Ht. run_handler. rewrite Hlen. simpl.
  rewrite Hnew, Ht.
  destruct t; simpl; eexists; (split; [reflexivity|]); simpl;
    (split; [eexists; reflexivity | reflexivity]).
Qed.

Lemma fresh_announcement_routed_witness :
  exists st',
    datagramMessageHandler switch_datagram sample_remote initial_platform
    = (Return tt, st') /\
    (exists name,
        trace st' =
          (trace initial_platform ++
             [Execute {| c_entry := AddMyStromSwitchDevice;
                         c_address := "192.168.1.20";
                         c_name := name;
                         c_token := None |}])%list) /\
    discovered st'
    = <[byteToHexString (subarray 0 5 switch_datagram) := sample_remote]>
        (discovered initial_platform).
Proof.
  apply (fresh_announcement_routed switch_datagram sample_remote
           initial_platform MYSTROM_SWITCH_CHV2);
    vm_compute; reflexivity.
Defined.

(** X6. A datagram whose type code lies outside 101..108 hands nothing to
    the policy, but its MAC is stored all the same; a later datagram with
    the same MAC bytes, whatever its type code, is then dropped as already
    seen. *)
Theorem unknown_type_blocks_mac m1 r1 m2 r2 st :
  length m1 = 8%nat ->
  length m2 = 8%nat ->
  firstn 6 m1 = firstn 6 m2 ->
  discovered st !! byteToHexString (subarray 0 5 m1) = None ->
  nth 6 m1 0 < 101 \/ 108 < nth 6 m1 0 ->
  exists st1 st2,
    datagramMessageHandler m1 r1 st = (Return tt, st1) /\
    trace st1 = (trace st ++ [Log Warn "Unknown device:"])%list /\
    discovered st1
    = <[byteToHexString (subarray 0 5 m1) := r1]> (discovered st) /\
    datagramMessageHandler m2 r2 st1 = (Return tt, st2) /\
    List.filter is_execute (trace st2) = List.filter is_execute (trace st) /\
    discovered st2 = discovered st1.
Proof.
  intros Hl1 Hl2 Hmac Hnew Hcode.
  apply DeviceTypes_of_code_None in Hcode.
  assert (H1 : datagramMessageHandler m1 r1 st =
    (Return tt,
     {| globalToken := globalToken st; accessories := accessories st;
        discovered :=
          <[byteToHexString (subarray 0 5 m1) := r1]> (discovered st);
        trace := (trace st ++ [Log Warn "Unknown device:"])%list |})).
  { run_handler. rewrite Hl1. simpl. rewrite Hnew, Hcode. reflexivity. }
  eexists. eexists. split; [exact H1|]. simpl.
  split; [reflexivity|]. split; [reflexivity|].
  rewrite datagramMessageHandler_seen.
  - split; [reflexivity|]. simpl. split; [|reflexivity].
    rewrite !List.filter_app. simpl. now rewrite !app_nil_r.
  - exact Hl2.
  - simpl. rewrite <- (subarray_mac_bytes m1 m2 Hmac), lookup_insert_eq. eauto.
Qed.

Lemma unknown_type_blocks_mac_witness :
  exists st1 st2,
    datagramMessageHandler [170; 187; 204; 221; 238; 255; 0; 0] sample_remote
      initial_platform = (Return tt, st1) /\
    trace st1 =
      (trace initial_platform ++ [Log Warn "Unknown device:"])%list /\
    discovered st1
    = <[byteToHexString
          (subarray 0 5 [170; 187; 204; 221; 238; 255; 0; 0])
        := sample_remote]> (discovered initial_platform) /\
    datagramMessageHandler switch_datagram sample_remote st1
    = (Return tt, st2) /\
    List.filter is_execute (trace st2)
    = List.filter is_execute (trace initial_platform) /\
    discovered st2 = discovered st1.
Proof.
  apply (unknown_type_blocks_mac [170; 187; 204; 221; 238; 255; 0; 0]
           sample_remote switch_datagram sample_remote initial_platform);
    try reflexivity.
  left. vm_compute. reflexivity.
Defined.

(** ** Restoring accessories from the cache *)

Ltac run_restore :=
  unfold configureAccessory, bind, ret, throw, effect, set_accessory.

Lemma AccessoryClass_of_string_name (cls : AccessoryClass) :
  AccessoryClass_of_string (AccessoryClass_name cls) = Some cls.
Proof. destruct cls; reflexivity. Qed.

Lemma AccessoryClass_of_string_Some (s : string) (cls : AccessoryClass) :
  AccessoryClass_of_string s = Some cls -> s = AccessoryClass_name cls.
Proof.
  unfold AccessoryClass_of_string.
  repeat match goal with
         | |- context [String.eqb ?a ?b] =>
             destruct (String.eqb_spec a b); [subst|]
         end;
    intros H; inversion H; reflexivity.
Qed.

Lemma configureAccessory_known accessory device s cls st :
  cached_device accessory = Some device ->
  cd_accessoryClass device = Some s ->
  AccessoryClass_of_string s = Some cls ->
  configureAccessory accessory st =
    (Return tt,
     let restored :=
       {| handle_class := cls;
          handle_accessory := restored_accessory accessory device cls |} in
     {| globalToken := globalToken st;
        accessories := <[cached_UUID accessory := restored]> (accessories st);
        discovered := discovered st;
        trace := (trace st ++
                    [Log Info "Restoring accessory from cache:";
                     Log Debug "Restoring accessory of class ->";
                     Construct restored])%list |}).
Proof.
  intros Hd Hs Hc. run_restore. rewrite Hd. simpl. rewrite Hs.
  destruct s as [|c r]; [discriminate|]. simpl. rewrite Hc. simpl.
  rewrite <- !app_assoc. reflexivity.
Qed.

(** X7. What an entry point registers can be restored: given the accessory
    as it was stored, [configureAccessory] constructs one handler of the
    class the entry point had used, for that very accessory, and puts it in
    the registry under the accessory's UUID; nothing is announced to the
    bridge again. *)
Theorem configureAccessory_restores_registered accessory st :
  exists st',
    configureAccessory (cache_of accessory) st = (Return tt, st') /\
    accessories st' =
      <[UUID accessory :=
          {| handle_class := di_accessoryClass (context_device accessory);
             handle_accessory := accessory |}]> (accessories st) /\
    trace st' =
      (trace st ++
         [Log Info "Restoring accessory from cache:";
          Log Debug "Restoring accessory of class ->";
          Construct
            {| handle_class := di_accessoryClass (context_device accessory);
               handle_accessory := accessory |}])%list.
Proof.
  rewrite (configureAccessory_known (cache_of accessory) _ _
             (di_accessoryClass (context_device accessory)) st
             eq_refl eq_refl (AccessoryClass_of_string_name _)).
  eexists. split; [reflexivity|].
  destruct accessory as [dn uuid [n a m t mo hw cls]]. simpl.
  split; reflexivity.
Qed.

(** X8. A cached accessory whose device record has no class tag, an empty
    one, or one that is none of the three class names is skipped: one
    warning after the log lines, no handler constructed, registry
    untouched. *)
Theorem configureAccessory_skips_unknown_class accessory device st :
  cached_device accessory = Some device ->
  (forall s, cd_accessoryClass device = Some s ->
             AccessoryClass_of_string s = None) ->
  exists st' lines message,
    configureAccessory accessory st = (Return tt, st') /\
    accessories st' = accessories st /\
    discovered st' = discovered st /\
    trace st' = (trace st ++ lines ++ [Log Warn message])%list /\
    List.filter is_construct lines = [].
Proof.
  intros Hd Hunknown. run_restore. rewrite Hd. simpl.
  destruct (cd_accessoryClass device) as [[|c r]|] eqn:Hs; simpl.
  - eexists. exists [Log Info "Restoring accessory from cache:"].
    eexists. repeat split. simpl. now rewrite <- app_assoc.
  - rewrite (Hunknown _ eq_refl). simpl.
    eexists. exists [Log Info "Restoring accessory from cache:";
                     Log Debug "Restoring accessory of class ->"].
    eexists. repeat split. simpl. now rewrite <- !app_assoc.
  - eexists. exists [Log Info "Restoring accessory from cache:"].
    eexists. repeat split. simpl. now rewrite <- app_assoc.
Qed.

Lemma configureAccessory_skips_unknown_class_witness :
  let device :=
    {| cd_name := "Sensor"; cd_address := "192.168.1.40";
       cd_mac := "AABBCCDDEE01"; cd_token := None; cd_model := "PIR";
       cd_hwInfo := HwMyStrom sample_switch_info;
       cd_accessoryClass := Some "MyStromPIRAccessory" |} in
  let accessory :=
    {| cached_displayName := "Sensor"; cached_UUID := "uuid-AABBCCDDEE01";
       cached_device := Some device |} in
  exists st' lines message,
    configureAccessory accessory initial_platform = (Return tt, st') /\
    accessories st' = accessories initial_platform /\
    discovered st' = discovered initial_platform /\
    trace st' =
      (trace initial_platform ++ lines ++ [Log Warn message])%list /\
    List.filter is_construct lines = [].
Proof.
  intros device accessory.
  apply (configureAccessory_skips_unknown_class accessory device
           initial_platform eq_refl).
  intros s Hs. injection Hs as <-. reflexivity.
Defined.

(** X9. A cached accessory whose context holds no device makes
    [configureAccessory] throw a [TypeError] at its first statement, before
    the branch that would have logged the missing context: nothing is
    logged and the platform state is unchanged. *)
Theorem configureAccessory_without_device_throws accessory st :
  cached_device accessory = None ->
  exists message,
    configureAccessory accessory st = (Throw (TypeError message), st).
Proof.
  intros Hd. run_restore. rewrite Hd. eexists. reflexivity.
Qed.

Lemma configureAccessory_without_device_throws_witness :
  exists message,
    configureAccessory
      {| cached_displayName := "Old"; cached_UUID := "uuid-0";
         cached_device := None |} initial_platform
    = (Throw (TypeError message), initial_platform).
Proof.
  apply (configureAccessory_without_device_throws
           {| cached_displayName := "Old"; cached_UUID := "uuid-0";
              cached_device := None |} initial_platform).
  reflexivity.
Defined.

(** ** Registration flows, one at a time *)

Section FlowProperties.

Variable generate : string -> string.

Ltac flow_known E :=
  run_registration;
  repeat match goal with
         | H : _ = false |- _ => rewrite H
         end;
  cbn; rewrite E; cbn; rewrite <- ?app_assoc; reflexivity.

Lemma addDingzDevice_known st a n t mac info rest existing :
  In (dz_type info) dingz_types ->
  accessories st !! generate (toUpperCase mac) = Some existing ->
  registration_flow (addDingzDevice generate a n t)
    (Some ((mac, info) :: rest)) st
  = (Return (true, Return (Some true)),
     {| globalToken := globalToken st;
        accessories := accessories st;
        discovered := discovered st;
        trace :=
          (trace st ++
             [Log Debug "Add configured device ->";
              HttpRequest ("http://" ++ a ++ "/api/v1/device") (default "" t);
              Log Debug "Got Device ->";
              Log Warn "Accessory already initialized";
              Emit UPDATE_INFO [AHandle existing];
              Identify existing])%list |}).
Proof.
  intros H E. apply dingz_types_check in H. flow_known E.
Qed.

Lemma addMyStromSwitchDevice_known st a n t info existing :
  In (ms_type info) switch_types ->
  accessories st !! generate (toUpperCase (ms_mac info)) = Some existing ->
  registration_flow (addMyStromSwitchDevice generate a n t) (Some info) st
  = (Return (true, Return (Some true)),
     {| globalToken := globalToken st;
        accessories := accessories st;
        discovered := discovered st;
        trace :=
          (trace st ++
             [Log Debug "Add configured/discovered device ->";
              HttpRequest ("http://" ++ a ++ "/info") (default "" t);
              Log Warn "Accessory already initialized";
              Identify existing])%list |}).
Proof.
  intros H E. apply switch_types_check in H. flow_known E.
Qed.

Lemma addMyStromLightbulbDevice_known st a n t info existing :
  In (ms_type info) lightbulb_types ->
  accessories st !! generate (toUpperCase (ms_mac info)) = Some existing ->
  registration_flow (addMyStromLightbulbDevice generate a n t) (Some info) st
  = (Return (true, Return (Some true)),
     {| globalToken := globalToken st;
        accessories := accessories st;
        discovered := discovered st;
        trace :=
          (trace st ++
             [Log Debug "Add configured/discovered device ->";
              HttpRequest ("http://" ++ a ++ "/api/v1/info") (default "" t);
              Log Warn "Accessory already initialized";
              Identify existing])%list |}).
Proof.
  intros H E. apply lightbulb_types_check in H. flow_known E.
Qed.


Ltac flow_fresh E :=
  unfold fresh_registration; run_registration;
  repeat match goal with
         | H : _ = false |- _ => rewrite H
         end;
  cbn; rewrite E; cbn;
  eexists; split; [reflexivity|]; cbn;
  split; [reflexivity|]; split; [reflexivity|];
  rewrite <- ?app_assoc; reflexivity.

Lemma addDingzDevice_fresh st a n t mac info rest :
  In (dz_type info) dingz_types ->
  accessories st !! generate (toUpperCase mac) = None ->
  exists st',
    registration_flow (addDingzDevice generate a n t)
      (Some ((mac, info) :: rest)) st
    = (Return (true, Return (Some true)), st') /\
    fresh_registration st st' (generate (toUpperCase mac)) DingzDaAccessory
      a (default "Unnamed DingzDa Device" n) (toUpperCase mac) t
      (default "DingZ" (puck_hw_model info)) (HwDingz info)
      [Log Debug "Add configured device ->";
       HttpRequest ("http://" ++ a ++ "/api/v1/device") (default "" t);
       Log Debug "Got Device ->"].
Proof.
  intros H E. apply dingz_types_check in H. flow_fresh E.
Qed.

Lemma addMyStromSwitchDevice_fresh st a n t info :
  In (ms_type info) switch_types ->
  accessories st !! generate (toUpperCase (ms_mac info)) = None ->
  exists st',
    registration_flow (addMyStromSwitchDevice generate a n t) (Some info) st
    = (Return (true, Return (Some true)), st') /\
    fresh_registration st st' (generate (toUpperCase (ms_mac info)))
      MyStromSwitchAccessory a
      (default (default "Unidentified myStrom Switch" n) (ms_name info))
      (toUpperCase (ms_mac info)) t
      (default "CH v1" (MYSTROM_SWITCH_TYPES (ms_type info)))
      (HwMyStrom info)
      [Log Debug "Add configured/discovered device ->";
       HttpRequest ("http://" ++ a ++ "/info") (default "" t)].
Proof.
  intros H E. apply switch_types_check in H. flow_fresh E.
Qed.

Lemma addMyStromLightbulbDevice_fresh st a n t info :
  In (ms_type info) lightbulb_types ->
  accessories st !! generate (toUpperCase (ms_mac info)) = None ->
  exists st',
    registration_flow (addMyStromLightbulbDevice generate a n t)
      (Some info) st
    = (Return (true, Return (Some true)), st') /\
    fresh_registration st st' (generate (toUpperCase (ms_mac info)))
      MyStromLightbulbAccessory a
      (default (default "Unidentified myStrom Lightbulb/LED" n)
         (ms_name info))
      (toUpperCase (ms_mac info)) t "102" (HwMyStrom info)
      [Log Debug "Add configured/discovered device ->";
       HttpRequest ("http://" ++ a ++ "/api/v1/info") (default "" t)].
Proof.
  intros H E. apply lightbulb_types_check in H. flow_fresh E.
Qed.

End FlowProperties.

Section FlowTheorems.

Variable generate : string -> string.

(** X10. The first registration of a device whose type the entry point
    accepts: the call returns [true], the promise is fulfilled with [true],
    and the registry gains exactly one handler, of the entry point's class,
    under the identity derived from the uppercased MAC; the handler is
    constructed once and its accessory is handed to the bridge once.  A
    switch or bulb is named by the name its info response carries, else by
    the name passed in, else by the default; a dingz by the name passed in
    or the default.  A dingz response with several keys is registered under
    its first key. *)
Theorem first_registration st a n t :
  (forall mac info rest,
      In (dz_type info) dingz_types ->
      accessories st !! generate (toUpperCase mac) = None ->
      exists st',
        registration_flow (addDingzDevice generate a n t)
          (Some ((mac, info) :: rest)) st
        = (Return (true, Return (Some true)), st') /\
        fresh_registration st st' (generate (toUpperCase mac))
          DingzDaAccessory a (default "Unnamed DingzDa Device" n)
          (toUpperCase mac) t (default "DingZ" (puck_hw_model info))
          (HwDingz info)
          [Log Debug "Add configured device ->";
           HttpRequest ("http://" ++ a ++ "/api/v1/device") (default "" t);
           Log Debug "Got Device ->"]) /\
  (forall info,
      In (ms_type info) switch_types ->
      accessories st !! generate (toUpperCase (ms_mac info)) = None ->
      exists st',
        registration_flow (addMyStromSwitchDevice generate a n t)
          (Some info) st
        = (Return (true, Return (Some true)), st') /\
        fresh_registration st st' (generate (toUpperCase (ms_mac info)))
          MyStromSwitchAccessory a
          (default (default "Unidentified myStrom Switch" n) (ms_name info))
          (toUpperCase (ms_mac info)) t
          (default "CH v1" (MYSTROM_SWITCH_TYPES (ms_type info)))
          (HwMyStrom info)
          [Log Debug "Add configured/discovered device ->";
           HttpRequest ("http://" ++ a ++ "/info") (default "" t)]) /\
  (forall info,
      In (ms_type info) lightbulb_types ->
      accessories st !! generate (toUpperCase (ms_mac info)) = None ->
      exists st',
        registration_flow (addMyStromLightbulbDevice generate a n t)
          (Some info) st
        = (Return (true, Return (Some true)), st') /\
        fresh_registration st st' (generate (toUpperCase (ms_mac info)))
          MyStromLightbulbAccessory a
          (default (default "Unidentified myStrom Lightbulb/LED" n)
             (ms_name info))
          (toUpperCase (ms_mac info)) t "102" (HwMyStrom info)
          [Log Debug "Add configured/discovered device ->";
           HttpRequest ("http://" ++ a ++ "/api/v1/info") (default "" t)]).
Proof.
  split; [|split]; intros.
  - now apply addDingzDevice_fresh.
  - now apply addMyStromSwitchDevice_fresh.
  - now apply addMyStromLightbulbDevice_fresh.
Qed.

(** X11. An accessory that was restored from the cache is not registered a
    second time: when the identity a registration flow derives is the UUID
    of a restored accessory, the flow constructs no handler, hands nothing
    to the bridge, leaves the registry as the restore left it, and calls
    [identify] on the restored handler. *)
Theorem restored_accessory_not_registered_again accessory st a n t :
  let restored :=
    {| handle_class := di_accessoryClass (context_device accessory);
       handle_accessory := accessory |} in
  let st1 := snd (configureAccessory (cache_of accessory) st) in
  (forall mac info rest,
      In (dz_type info) dingz_types ->
      generate (toUpperCase mac) = UUID accessory ->
      exists st2,
        registration_flow (addDingzDevice generate a n t)
          (Some ((mac, info) :: rest)) st1
        = (Return (true, Return (Some true)), st2) /\
        accessories st2 = accessories st1 /\
        trace st2 =
          (trace st1 ++
             [Log Debug "Add configured device ->";
              HttpRequest ("http://" ++ a ++ "/api/v1/device")
                (default "" t);
              Log Debug "Got Device ->";
              Log Warn "Accessory already initialized";
              Emit UPDATE_INFO [AHandle restored];
              Identify restored])%list) /\
  (forall info,
      In (ms_type info) switch_types ->
      generate (toUpperCase (ms_mac info)) = UUID accessory ->
      exists st2,
        registration_flow (addMyStromSwitchDevice generate a n t)
          (Some info) st1
        = (Return (true, Return (Some true)), st2) /\
        accessories st2 = accessories st1 /\
        trace st2 =
          (trace st1 ++
             [Log Debug "Add configured/discovered device ->";
              HttpRequest ("http://" ++ a ++ "/info") (default "" t);
              Log Warn "Accessory already initialized";
              Identify restored])%list) /\
  (forall info,
      In (ms_type info) lightbulb_types ->
      generate (toUpperCase (ms_mac info)) = UUID accessory ->
      exists st2,
        registration_flow (addMyStromLightbulbDevice generate a n t)
          (Some info) st1
        = (Return (true, Return (Some true)), st2) /\
        accessories st2 = accessories st1 /\
        trace st2 =
          (trace st1 ++
             [Log Debug "Add configured/discovered device ->";
              HttpRequest ("http://" ++ a ++ "/api/v1/info") (default "" t);
              Log Warn "Accessory already initialized";
              Identify restored])%list).
Proof.
  intros restored st1.
  assert (Hin : forall uuid, uuid = UUID accessory ->
                             accessories st1 !! uuid = Some restored).
  { intros uuid ->. subst st1.
    rewrite (configureAccessory_known (cache_of accessory) _ _
               (di_accessoryClass (context_device accessory)) st
               eq_refl eq_refl (AccessoryClass_of_string_name _)).
    simpl. rewrite lookup_insert_eq. subst restored.
    destruct accessory as [dn uuid [n' a' m t' mo hw cls]]. reflexivity. }
  split; [|split].
  - intros mac info rest Ht Hid.
    rewrite (addDingzDevice_known generate st1 a n t mac info rest restored
               Ht (Hin _ Hid)).
    eexists. repeat split.
  - intros info Ht Hid.
    rewrite (addMyStromSwitchDevice_known generate st1 a n t info restored
               Ht (Hin _ Hid)).
    eexists. repeat split.
  - intros info Ht Hid.
    rewrite (addMyStromLightbulbDevice_known generate st1 a n t info restored
               Ht (Hin _ Hid)).
    eexists. repeat split.
Qed.

End FlowTheorems.

Lemma first_registration_witness :
  (exists st',
      registration_flow
        (addDingzDevice sample_generate "192.168.1.30" (Some "Hall") None)
        (Some sample_dingz_devices) initial_platform
      = (Return (true, Return (Some true)), st') /\
      fresh_registration initial_platform st'
        (sample_generate "F008D1C4AABB") DingzDaAccessory "192.168.1.30"
        "Hall" "F008D1C4AABB" None "DingZ"
        (HwDingz {| dz_type := TStr "dingz"; puck_hw_model := None |})
        [Log Debug "Add configured device ->";
         HttpRequest "http://192.168.1.30/api/v1/device" "";
         Log Debug "Got Device ->"]) /\
  (exists st',
      registration_flow
        (addMyStromSwitchDevice sample_generate "192.168.1.20" None None)
        (Some sample_switch_info) initial_platform
      = (Return (true, Return (Some true)), st') /\
      fresh_registration initial_platform st'
        (sample_generate "AABBCCDDEEFF") MyStromSwitchAccessory
        "192.168.1.20" "Unidentified myStrom Switch" "AABBCCDDEEFF" None
        "EU" (HwMyStrom sample_switch_info)
        [Log Debug "Add configured/discovered device ->";
         HttpRequest "http://192.168.1.20/info" ""]) /\
  (exists st',
      registration_flow
        (addMyStromLightbulbDevice sample_generate "192.168.1.21"
           (Some "Lamp") None)
        (Some sample_bulb_info) initial_platform
      = (Return (true, Return (Some true)), st') /\
      fresh_registration initial_platform st'
        (sample_generate "A1B2C3D4E5F6") MyStromLightbulbAccessory
        "192.168.1.21" "Lamp" "A1B2C3D4E5F6" None "102"
        (HwMyStrom sample_bulb_info)
        [Log Debug "Add configured/discovered device ->";
         HttpRequest "http://192.168.1.21/api/v1/info" ""]).
Proof.
  split; [|split].
  - apply (proj1 (first_registration sample_generate initial_platform
                    "192.168.1.30" (Some "Hall") None)
             "F008D1C4AABB"
             {| dz_type := TStr "dingz"; puck_hw_model := None |} []);
      [left; reflexivity | reflexivity].
  - apply (proj1 (proj2 (first_registration sample_generate initial_platform
                           "192.168.1.20" None None))
             sample_switch_info);
      [unfold switch_types; simpl; tauto | reflexivity].
  - apply (proj2 (proj2 (first_registration sample_generate initial_platform
                           "192.168.1.21" (Some "Lamp") None))
             sample_bulb_info);
      [left; reflexivity | reflexivity].
Defined.

Lemma restored_accessory_not_registered_again_witness :
  let accessory :=
    {| displayName := "Plug"; UUID := sample_generate "AABBCCDDEEFF";
       context_device :=
         {| di_name := "Plug"; di_address := "192.168.1.19";
            di_mac := "AABBCCDDEEFF"; di_token := None; di_model := "EU";
            di_hwInfo := HwMyStrom sample_switch_info;
            di_accessoryClass := MyStromSwitchAccessory |} |} in
  let restored :=
    {| handle_class := MyStromSwitchAccessory;
       handle_accessory := accessory |} in
  let st1 := snd (configureAccessory (cache_of accessory) initial_platform) in
  exists st2,
    registration_flow
      (addMyStromSwitchDevice sample_generate "192.168.1.20" None None)
      (Some sample_switch_info) st1
    = (Return (true, Return (Some true)), st2) /\
    accessories st2 = accessories st1 /\
    trace st2 =
      (trace st1 ++
         [Log Debug "Add configured/discovered device ->";
          HttpRequest "http://192.168.1.20/info" "";
          Log Warn "Accessory already initialized";
          Identify restored])%list.
Proof.
  intros accessory restored st1.
  apply (proj1 (proj2 (restored_accessory_not_registered_again
                         sample_generate accessory initial_platform
                         "192.168.1.20" None None))
           sample_switch_info);
    [unfold switch_types; simpl; tauto | reflexivity].
Defined.

Section LookupProperties.

Variable generate : string -> string.

Lemma upper_ascii_idempotent (c : ascii) :
  upper_ascii (upper_ascii c) = upper_ascii c.
Proof.
  destruct c as [[] [] [] [] [] [] [] []]; reflexivity.
Qed.

Lemma toUpperCase_idempotent (s : string) :
  toUpperCase (toUpperCase s) = toUpperCase s.
Proof.
  induction s as [|c r IH]; simpl; [reflexivity|].
  now rewrite upper_ascii_idempotent, IH.
Qed.

(** X12. [getAccessoryByMac] finds what registration stored, however the
    MAC is written: after the registration flow of a switch whose type is
    accepted, the lookup of any spelling of its MAC (the MAC as reported,
    its uppercase form, or any string with the same uppercase form)
    returns the handler the registry holds for it and changes nothing.  On
    a registry without that identity the lookup returns nothing. *)
Theorem getAccessoryByMac_finds_registered st a n t info mac' :
  In (ms_type info) switch_types ->
  toUpperCase mac' = toUpperCase (ms_mac info) ->
  let st1 :=
    snd (registration_flow (addMyStromSwitchDevice generate a n t)
           (Some info) st) in
  (exists registered,
      getAccessoryByMac generate mac' st1 = (Return (Some registered), st1) /\
      getAccessoryByMac generate (toUpperCase mac') st1
      = (Return (Some registered), st1) /\
      accessories st1 !! generate (toUpperCase (ms_mac info))
      = Some registered) /\
  (accessories st !! generate (toUpperCase (ms_mac info)) = None ->
   getAccessoryByMac generate mac' st = (Return None, st)).
Proof.
  intros Ht Hmac st1. unfold getAccessoryByMac, bind, ret, get_accessories.
  rewrite toUpperCase_idempotent, Hmac. split.
  - subst st1.
    destruct (accessories st !! generate (toUpperCase (ms_mac info)))
      as [existing|] eqn:E.
    + rewrite (addMyStromSwitchDevice_known generate st a n t info existing
                 Ht E).
      simpl. rewrite E. eauto.
    + destruct (addMyStromSwitchDevice_fresh generate st a n t info Ht E)
        as (st' & Hflow & Hacc & _).
      rewrite Hflow. simpl. rewrite Hacc, lookup_insert_eq. eauto.
  - intros E. rewrite E. reflexivity.
Qed.

End LookupProperties.

Lemma getAccessoryByMac_finds_registered_witness :
  let st1 :=
    snd (registration_flow
           (addMyStromSwitchDevice sample_generate "192.168.1.20" None None)
           (Some sample_switch_info) initial_platform) in
  (exists registered,
      getAccessoryByMac sample_generate "AaBbCcDdEeFf" st1
      = (Return (Some registered), st1) /\
      getAccessoryByMac sample_generate (toUpperCase "AaBbCcDdEeFf") st1
      = (Return (Some registered), st1) /\
      accessories st1 !! sample_generate (toUpperCase "aabbccddeeff")
      = Some registered) /\
  (accessories initial_platform
     !! sample_generate (toUpperCase "aabbccddeeff") = None ->
   getAccessoryByMac sample_generate "AaBbCcDdEeFf" initial_platform
   = (Return None, initial_platform)).
Proof.
  apply (getAccessoryByMac_finds_registered sample_generate initial_platform
           "192.168.1.20" None None sample_switch_info "AaBbCcDdEeFf");
    [unfold switch_types; simpl; tauto | reflexivity].
Defined.

Section RegistryInvariant.

Variable generate : string -> string.

Ltac keeps_entry Hk :=
  run_registration;
  repeat first
    [ progress cbn
    | match goal with
      | |- context [match ?r with Some _ => _ | None => _ end] =>
          let E := fresh "E" in destruct r eqn:E
      | |- context [match ?r with [] => _ | _ :: _ => _ end] =>
          destruct r as [|[? ?] ?]
      | |- context [if ?c then _ else _] => destruct c
      end ];
  try exact Hk;
  rewrite lookup_insert_ne; [exact Hk | congruence].

(** X13. No registration flow replaces or removes a registry entry: for
    every entry point and every outcome of the HTTP round trip (no answer,
    an empty or malformed answer, a wrong type, a known or an unknown
    device), a handler that was in the registry before the flow is still
    there, under the same identity, after it. *)
Theorem registration_keeps_entries st a n t key existing :
  accessories st !! key = Some existing ->
  (forall response,
      accessories
        (snd (registration_flow (addDingzDevice generate a n t) response st))
        !! key = Some existing) /\
  (forall response,
      accessories
        (snd (registration_flow (addMyStromSwitchDevice generate a n t)
                response st))
        !! key = Some existing) /\
  (forall response,
      accessories
        (snd (registration_flow (addMyStromLightbulbDevice generate a n t)
                response st))
        !! key = Some existing).
Proof.
  intros Hk. split; [|split]; intros response.
  - keeps_entry Hk.
  - keeps_entry Hk.
  - keeps_entry Hk.
Qed.

End RegistryInvariant.

Lemma registration_keeps_entries_witness :
  let st1 :=
    snd (registration_flow
           (addMyStromSwitchDevice sample_generate "192.168.1.20" None None)
           (Some sample_switch_info) initial_platform) in
  let registered :=
    {| handle_class := MyStromSwitchAccessory;
       handle_accessory :=
         {| displayName := "Unidentified myStrom Switch";
            UUID := "uuid-AABBCCDDEEFF";
            context_device :=
              {| di_name := "Unidentified myStrom Switch";
                 di_address := "192.168.1.20";
                 di_mac := "AABBCCDDEEFF";
                 di_token := None;
                 di_model := "EU";
                 di_hwInfo := HwMyStrom sample_switch_info;
                 di_accessoryClass := MyStromSwitchAccessory |} |} |} in
  accessories
    (snd (registration_flow
            (addMyStromLightbulbDevice sample_generate "192.168.1.99" None
               None)
            (Some {| ms_mac := "aabbccddeeff"; ms_type := TNum 102;
                     ms_name := Some "Impostor" |}) st1))
    !! "uuid-AABBCCDDEEFF" = Some registered.
Proof.
  intros st1 registered.
  apply (proj2 (proj2 (registration_keeps_entries sample_generate st1
                         "192.168.1.99" None None "uuid-AABBCCDDEEFF"
                         registered ltac:(vm_compute; reflexivity)))).
Defined.

Section EdgeResponses.

Variable generate : string -> string.

(** X14. A dingz response that is an empty object rejects the promise with
    a [TypeError] (the callback reads [type] of an undefined descriptor)
    while the call has returned [true]; the registry is unchanged.  Of a
    response with several keys only the first is looked at. *)
Theorem dingz_response_first_key_only st a n t :
  (exists message,
      registration_flow (addDingzDevice generate a n t) (Some []) st
      = (Return (true, Throw (TypeError message)),
         {| globalToken := globalToken st;
            accessories := accessories st;
            discovered := discovered st;
            trace :=
              (trace st ++
                 [Log Debug "Add configured device ->";
                  HttpRequest ("http://" ++ a ++ "/api/v1/device")
                    (default "" t);
                  Log Debug "Got Device ->"])%list |})) /\
  (forall mac info rest,
      registration_flow (addDingzDevice generate a n t)
        (Some ((mac, info) :: rest)) st
      = registration_flow (addDingzDevice generate a n t)
          (Some [(mac, info)]) st).
Proof.
  split.
  - run_registration. cbn. rewrite <- !app_assoc. eexists. reflexivity.
  - reflexivity.
Qed.

(** X15. The model label of a newly registered switch follows its type:
    "CH v2" for WS2 and 106, "EU" for WSEU and 107, "CH v1" when the
    response has no type.  A type given as the string "106" or "107" is
    rejected with [InvalidTypeError], although the label table has entries
    under these keys. *)
Theorem switch_model_label st a n t info :
  (In (ms_type info) switch_types ->
   accessories st !! generate (toUpperCase (ms_mac info)) = None ->
   exists registered label,
     accessories
       (snd (registration_flow (addMyStromSwitchDevice generate a n t)
               (Some info) st))
       !! generate (toUpperCase (ms_mac info)) = Some registered /\
     di_model (context_device (handle_accessory registered)) = label /\
     ((label = "CH v2" /\
       (ms_type info = TStr "WS2" \/ ms_type info = TNum 106)) \/
      (label = "EU" /\
       (ms_type info = TStr "WSEU" \/ ms_type info = TNum 107)) \/
      (label = "CH v1" /\ ms_type info = TUndefined))) /\
  (ms_type info = TStr "106" \/ ms_type info = TStr "107" ->
   is_Some (MYSTROM_SWITCH_TYPES (ms_type info)) /\
   exists name st',
     registration_flow (addMyStromSwitchDevice generate a n t) (Some info) st
     = (Return (true, Throw (InvalidTypeError name a (ms_type info))), st') /\
     accessories st' = accessories st).
Proof.
  split.
  - intros Ht E.
    destruct (addMyStromSwitchDevice_fresh generate st a n t info Ht E)
      as (st' & Hflow & Hacc & _).
    rewrite Hflow. simpl. rewrite Hacc, lookup_insert_eq.
    eexists. eexists. split; [reflexivity|]. split; [reflexivity|]. simpl.
    unfold switch_types in Ht. simpl in Ht.
    destruct Ht as [<-|[<-|[<-|[<-|[<-|[]]]]]]; simpl; tauto.
  - intros Hs. split; [destruct Hs as [-> | ->]; simpl; eauto|].
    run_registration.
    destruct Hs as [-> | ->]; cbn; eexists; eexists; split; reflexivity.
Qed.

End EdgeResponses.

Lemma switch_model_label_witness :
  (exists registered label,
      accessories
        (snd (registration_flow
                (addMyStromSwitchDevice sample_generate "192.168.1.20" None
                   None)
                (Some sample_switch_info) initial_platform))
        !! sample_generate (toUpperCase "aabbccddeeff") = Some registered /\
      di_model (context_device (handle_accessory registered)) = label /\
      ((label = "CH v2" /\
        (TNum 107 = TStr "WS2" \/ TNum 107 = TNum 106)) \/
       (label = "EU" /\
        (TNum 107 = TStr "WSEU" \/ TNum 107 = TNum 107)) \/
       (label = "CH v1" /\ TNum 107 = TUndefined))) /\
  (is_Some (MYSTROM_SWITCH_TYPES (TStr "106")) /\
   exists name st',
     registration_flow
       (addMyStromSwitchDevice sample_generate "192.168.1.20" None None)
       (Some {| ms_mac := "aabbccddeeff"; ms_type := TStr "106";
                ms_name := None |}) initial_platform
     = (Return (true,
                Throw (InvalidTypeError name "192.168.1.20" (TStr "106"))),
        st') /\
     accessories st' = accessories initial_platform).
Proof.
  split.
  - apply (proj1 (switch_model_label sample_generate initial_platform
                    "192.168.1.20" None None sample_switch_info));
      [unfold switch_types; simpl; tauto | reflexivity].
  - apply (proj2 (switch_model_label sample_generate initial_platform
                    "192.168.1.20" None None
                    {| ms_mac := "aabbccddeeff"; ms_type := TStr "106";
                       ms_name := None |})).
    left. reflexivity.
Defined.

(** ** The callback server on arbitrary requests *)

Section RequestProperties.

Variable URL_searchParams : string -> string -> Completion URLSearchParams.

Lemma or_else_nonempty (v : option string) (c : ascii) (r : string) :
  or_else v (String c r) <> "".
Proof. destruct v as [[|c' r']|]; simpl; discriminate. Qed.

(** X16. What a request can cause.  Without a URL, or with an empty one,
    nothing happens at all: no answer is written.  When the URL cannot be
    parsed the exception leaves the handler before any answer.  Otherwise
    the answer 204 is written and ended first, and after it at most one
    [BTN_PRESS] event is published; the event's action is never the empty
    string, while its MAC and button may be.  The registry and the seen-set
    are never touched. *)
Theorem handleRequest_outcomes request st :
  let base := "http://" ++ default "undefined" (headers_host request) in
  (url request = None \/ url request = Some "" ->
   handleRequest URL_searchParams request st = (Return tt, st)) /\
  (forall c r e,
      url request = Some (String c r) ->
      URL_searchParams (String c r) base = Throw e ->
      handleRequest URL_searchParams request st = (Throw e, st)) /\
  (forall c r p,
      url request = Some (String c r) ->
      URL_searchParams (String c r) base = Return p ->
      exists st' events,
        handleRequest URL_searchParams request st = (Return tt, st') /\
        accessories st' = accessories st /\
        discovered st' = discovered st /\
        trace st' = (trace st ++ [WriteHead 204; EndResponse] ++ events)%list /\
        (events = [] \/
         exists m b a,
           events = [Emit BTN_PRESS [AStr m; AStr b; AStr a]] /\ a <> "")).
Proof.
  intros base. split; [|split].
  - intros [H|H]; unfold handleRequest; rewrite H; reflexivity.
  - intros c r e Hurl Hparse. unfold handleRequest. subst base.
    rewrite Hurl, Hparse. reflexivity.
  - intros c r p Hurl Hparse. subst base.
    rewrite (handleRequest_parsed URL_searchParams request c r p st Hurl
               Hparse).
    unfold handleRequest_finished.
    destruct (has "mac" p && has "action" p && has "button" p).
    + unfold effect. eexists. eexists. split; [reflexivity|]. simpl.
      repeat split.
      * rewrite <- !app_assoc. reflexivity.
      * right. eexists. eexists. eexists. split; [reflexivity|].
        apply or_else_nonempty.
    + unfold ret. eexists. exists []. split; [reflexivity|]. simpl.
      repeat split.
      * rewrite <- !app_assoc. reflexivity.
      * left. reflexivity.
Qed.

End RequestProperties.

Lemma handleRequest_outcomes_witness :
  (handleRequest (fun _ _ => Return sample_query)
     {| url := Some ""; headers_host := None |} initial_platform
   = (Return tt, initial_platform)) /\
  (handleRequest
     (fun _ _ => Throw (TypeError "Invalid URL"))
     {| url := Some "//"; headers_host := None |} initial_platform
   = (Throw (TypeError "Invalid URL"), initial_platform)) /\
  (exists st' events,
      handleRequest (fun _ _ => Return [("mac", ""); ("action", "");
                                        ("button", "")])
        {| url := Some "/?mac=&action=&button="; headers_host := None |}
        initial_platform = (Return tt, st') /\
      accessories st' = accessories initial_platform /\
      discovered st' = discovered initial_platform /\
      trace st' =
        (trace initial_platform ++ [WriteHead 204; EndResponse] ++ events)%list /\
      (events = [] \/
       exists m b a,
         events = [Emit BTN_PRESS [AStr m; AStr b; AStr a]] /\ a <> "")).
Proof.
  split; [|split].
  - apply (proj1 (handleRequest_outcomes (fun _ _ => Return sample_query)
                    {| url := Some ""; headers_host := None |}
                    initial_platform)).
    right. reflexivity.
  - apply (proj1 (proj2 (handleRequest_outcomes
                           (fun _ _ => Throw (TypeError "Invalid URL"))
                           {| url := Some "//"; headers_host := None |}
                           initial_platform))
             "/"%char "/" (TypeError "Invalid URL"));
      reflexivity.
  - apply (proj2 (proj2 (handleRequest_outcomes
                           (fun _ _ => Return [("mac", ""); ("action", "");
                                               ("button", "")])
                           {| url := Some "/?mac=&action=&button=";
                              headers_host := None |}
                           initial_platform))
             "/"%char "?mac=&action=&button="
             [("mac", ""); ("action", ""); ("button", "")]);
      reflexivity.
Defined.

(** * Properties of the accessory handlers *)

Module AccessoryProperties.

Import Accessory.

Section SwitchProperties.

Context `{Numbers}.

Lemma pushed_app c (xs ys : list Event) :
  pushed c (xs ++ ys) = (pushed c xs ++ pushed c ys)%list.
Proof.
  induction xs as [|[e|v|sv c' v] xs IH]; simpl; auto.
  destruct (Characteristic_eqb c c'); simpl; now rewrite IH.
Qed.

Lemma answered_app (xs ys : list Event) :
  answered (xs ++ ys) = (answered xs ++ answered ys)%list.
Proof.
  induction xs as [|[e|v|sv c' v] xs IH]; simpl; auto. now rewrite IH.
Qed.

(** X17. [setOn] is optimistic.  On a handler that holds a report it sends
    one request, to [/relay?state=1] or [/relay?state=0] on the device's
    address, stores the value and calls back without error; and whatever
    becomes of the request, [getOn] afterwards answers the value that was
    set, while power and temperature are the ones held before. *)
Theorem setOn_then_getOn (s : SwitchAccessory) state value status :
  outletState s = Some state ->
  exists s1,
    setOn value s = (Return tt, s1) /\
    sw_events s1 =
      (sw_events s ++
         [FromPlatform (Log Debug "Set Characteristic On ->");
          FromPlatform
            (HttpRequest
               ("http://" ++ di_address (sw_device s) ++ "/relay?state="
                ++ (if value then "1" else "0"))
               (default "" (di_token (sw_device s))));
          Callback None])%list /\
    let s2 := setDeviceState_settled status s1 in
    outletState s2 =
      Some {| power := power state; relay := value;
              temperature := temperature state |} /\
    getOn s2 =
      (Return tt,
       sw_emit [FromPlatform (Log Debug "Get Characteristic On ->");
                Callback (Some (VBool value))] s2).
Proof.
  intros Hs. unfold setOn. simpl. rewrite Hs.
  eexists. split; [reflexivity|]. split.
  - simpl. rewrite <- !app_assoc. unfold sw_baseUrl, sw_device. simpl.
    rewrite string_app_assoc. reflexivity.
  - destruct status; simpl; split; reflexivity.
Qed.

(** X18. A tick of the poller that gets a report makes the report the
    handler's state and pushes what the GET handlers will answer: the
    relay as [On], whether the power is above zero as [OutletInUse], and,
    when the handler has a temperature service, the temperature.  A value
    set by [setOn] before the tick is overwritten by the device's. *)
Theorem sw_poll_report_is_served (s : SwitchAccessory) report :
  let s1 := sw_poll (Some report) s in
  outletState s1 = Some report /\
  (exists added,
      sw_events s1 = (sw_events s ++ added)%list /\
      pushed On added = [VBool (relay report)] /\
      pushed OutletInUse added = [VBool (gt_zero (power report))] /\
      pushed CurrentTemperature added =
        (if temperatureService s then [VNumber (temperature report)]
         else []) /\
      answered added = []) /\
  getOn s1 =
    (Return tt,
     sw_emit [FromPlatform (Log Debug "Get Characteristic On ->");
              Callback (Some (VBool (relay report)))] s1) /\
  getOutletInUse s1 =
    (Return tt,
     sw_emit [FromPlatform (Log Debug "Get Characteristic OutletInUse ->");
              Callback (Some (VBool (gt_zero (power report))))] s1) /\
  sw_getTemperature s1 =
    (Return tt,
     sw_emit [FromPlatform (Log Debug "Get Characteristic Temperature ->");
              Callback (Some (VNumber (temperature report)))] s1).
Proof.
  intros s1. subst s1. unfold sw_poll. simpl.
  destruct (temperatureService s) eqn:Ht; simpl;
    (split; [reflexivity|]);
    (split; [eexists; split;
             [rewrite <- !app_assoc; reflexivity | repeat split]|]);
    repeat split.
Qed.

(** X19. A tick of the poller that gets no answer leaves the handler
    without a state: [outletState] is [undefined] afterwards, and until a
    later tick gets a report, [getOn], [getOutletInUse], [getTemperature]
    and [setOn] each throw a [TypeError] instead of calling back.  The
    first tick that gets a report puts the handler right again. *)
Theorem sw_poll_failure_breaks_handlers (s : SwitchAccessory) value report :
  let s1 := sw_poll None s in
  outletState s1 = None /\
  pushed On (sw_events s1) = pushed On (sw_events s) /\
  (exists message, getOn s1 = (Throw (TypeError message), s1)) /\
  (exists message, getOutletInUse s1 = (Throw (TypeError message), s1)) /\
  (exists message, sw_getTemperature s1 = (Throw (TypeError message), s1)) /\
  (exists message s2,
      setOn value s1 = (Throw (TypeError message), s2) /\
      answered (sw_events s2) = answered (sw_events s) /\
      outletState s2 = None) /\
  outletState (sw_poll None s1) = None /\
  outletState (sw_poll (Some report) s1) = Some report.
Proof.
  intros s1. subst s1. unfold sw_poll, setOn, getOn, getOutletInUse,
    sw_getTemperature. simpl.
  repeat split; try (eexists; reflexivity).
  - rewrite !pushed_app. simpl. now rewrite !app_nil_r.
  - eexists. eexists. split; [reflexivity|]. simpl.
    rewrite !answered_app. simpl. now rewrite !app_nil_r.
  - destruct (temperatureService s); reflexivity.
Qed.

Lemma sw_poll_temperatureService response (s : SwitchAccessory) :
  temperatureService (sw_poll response s) = temperatureService s.
Proof.
  unfold sw_poll. destruct response; simpl; [|reflexivity].
  destruct (temperatureService s) eqn:E; simpl; assumption.
Qed.

Lemma sw_poll_pushed response (s : SwitchAccessory) :
  pushed On (sw_events (sw_poll response s)) =
    (pushed On (sw_events s)
       ++ map (fun r => VBool (relay r)) (answers [response]))%list /\
  pushed OutletInUse (sw_events (sw_poll response s)) =
    (pushed OutletInUse (sw_events s)
       ++ map (fun r => VBool (gt_zero (power r))) (answers [response]))%list /\
  pushed CurrentTemperature (sw_events (sw_poll response s)) =
    (pushed CurrentTemperature (sw_events s)
       ++ (if temperatureService s
           then map (fun r => VNumber (temperature r)) (answers [response])
           else []))%list /\
  answered (sw_events (sw_poll response s)) = answered (sw_events s).
Proof.
  unfold sw_poll, answers.
  destruct response as [report|]; simpl;
    destruct (temperatureService s) eqn:E; simpl;
    rewrite ?pushed_app, ?answered_app; simpl;
    rewrite ?app_nil_r, <- ?app_assoc; simpl;
    repeat split; reflexivity.
Qed.

Lemma sw_poll_outletState response (s : SwitchAccessory) :
  outletState (sw_poll response s) = response.
Proof.
  unfold sw_poll. destruct response; simpl; [|reflexivity].
  destruct (temperatureService s); reflexivity.
Qed.

Lemma last_cons_default {X} (x d : X) (l : list X) :
  List.last (x :: l) d = List.last l x.
Proof.
  revert x d. induction l as [|y l IH]; intros x d; [reflexivity|].
  change (List.last (x :: y :: l) d) with (List.last (y :: l) d).
  rewrite (IH y d). symmetry. apply IH.
Qed.

Lemma answers_cons {R} (response : option R) (rest : list (option R)) :
  answers (response :: rest) = (answers [response] ++ answers rest)%list.
Proof. unfold answers. destruct response; reflexivity. Qed.

Lemma sw_polls_pushed responses :
  forall s : SwitchAccessory,
  temperatureService (sw_polls responses s) = temperatureService s /\
  outletState (sw_polls responses s) = List.last responses (outletState s) /\
  pushed On (sw_events (sw_polls responses s)) =
    (pushed On (sw_events s)
       ++ map (fun r => VBool (relay r)) (answers responses))%list /\
  pushed OutletInUse (sw_events (sw_polls responses s)) =
    (pushed OutletInUse (sw_events s)
       ++ map (fun r => VBool (gt_zero (power r))) (answers responses))%list /\
  pushed CurrentTemperature (sw_events (sw_polls responses s)) =
    (pushed CurrentTemperature (sw_events s)
       ++ (if temperatureService s
           then map (fun r => VNumber (temperature r)) (answers responses)
           else []))%list /\
  answered (sw_events (sw_polls responses s)) = answered (sw_events s).
Proof.
  induction responses as [|response rest IH]; intros s.
  - simpl. destruct (temperatureService s);
      rewrite ?app_nil_r; repeat split; reflexivity.
  - cbn [sw_polls].
    destruct (IH (sw_poll response s)) as (Ht & Hs & Hon & Huse & Htemp & Ha).
    destruct (sw_poll_pushed response s) as (Pon & Puse & Ptemp & Pa).
    rewrite sw_poll_temperatureService in Ht, Htemp.
    rewrite Ht, Hs, Hon, Huse, Htemp, Ha, Pon, Puse, Ptemp, Pa.
    rewrite (answers_cons response rest), !map_app, <- !app_assoc.
    rewrite (sw_poll_outletState response s),
      (last_cons_default response (outletState s) rest).
    repeat split.
    destruct (temperatureService s);
      rewrite ?app_nil_r, <- ?app_assoc; reflexivity.
Qed.

(** X20. The run of a switch handler from its construction through any
    sequence of poller ticks: the handler's state is what the last tick
    got ([undefined] when that tick got no answer); every tick that got a
    report has pushed its relay and its in-use flag, in order, and nothing
    else was pushed for these; the temperature of every report was pushed
    when the device's info carries a type, and no temperature is ever
    pushed for a device without one (a first-generation switch); no tick
    calls a callback. *)
Theorem sw_polls_from_construction accessory responses :
  let s := sw_polls responses (new_MyStromSwitchAccessory accessory) in
  outletState s =
    List.last responses
      (Some {| power := zero; relay := false; temperature := zero |}) /\
  pushed On (sw_events s) =
    map (fun r => VBool (relay r)) (answers responses) /\
  pushed OutletInUse (sw_events s) =
    map (fun r => VBool (gt_zero (power r))) (answers responses) /\
  pushed CurrentTemperature (sw_events s) =
    (if strict_ne (HwInfo_type (di_hwInfo (context_device accessory)))
          TUndefined
     then map (fun r => VNumber (temperature r)) (answers responses)
     else []) /\
  answered (sw_events s) = [].
Proof.
  intros s. subst s.
  destruct (sw_polls_pushed responses (new_MyStromSwitchAccessory accessory))
    as (_ & Hs & Hon & Huse & Htemp & Ha).
  rewrite Hs, Hon, Huse, Htemp, Ha. simpl. repeat split.
Qed.

End SwitchProperties.

Lemma setOn_then_getOn_witness :
  let s := @new_MyStromSwitchAccessory Z_numbers sample_switch_accessory in
  exists s1,
    setOn true s = (Return tt, s1) /\
    sw_events s1 =
      (sw_events s ++
         [FromPlatform (Log Debug "Set Characteristic On ->");
          FromPlatform (HttpRequest "http://192.168.1.20/relay?state=1" "");
          Callback None])%list /\
    let s2 := setDeviceState_settled None s1 in
    outletState s2 = Some (@Build_MyStromSwitchReport Z_numbers 0 true 0) /\
    getOn s2 =
      (Return tt,
       sw_emit [FromPlatform (Log Debug "Get Characteristic On ->");
                Callback (Some (VBool true))] s2).
Proof.
  intros s.
  apply (@setOn_then_getOn Z_numbers s
           (@Build_MyStromSwitchReport Z_numbers 0 false 0) true None).
  reflexivity.
Defined.

Section PIRProperties.

Context `{Numbers}.

Lemma alternating_changes (current : bool) (values : list bool) :
  alternating (current :: changes current values).
Proof.
  revert current. induction values as [|v rest IH]; intros current; simpl.
  - exact I.
  - destruct (Bool.eqb current v) eqn:E.
    + apply IH.
    + split; [|apply IH]. intros ->. now rewrite Bool.eqb_reflx in E.
Qed.

(** One tick, by what it adds. *)
Lemma pir_poll_step address token response (s : PIRAccessory) :
  exists added,
    pir_events (pir_poll address token response s)
    = (pir_events s ++ added)%list /\
    pushed MotionDetected added =
      map VBool (changes (motion s) (map pir_motion (answers [response]))) /\
    pushed CurrentTemperature added =
      map (fun r => VNumber (pir_temperature r)) (answers [response]) /\
    pushed CurrentAmbientLightLevel added =
      map (fun r => VNumber (default zero (pir_light r)))
        (answers [response]) /\
    answered added = [] /\
    motion (pir_poll address token response s) =
      List.last (map pir_motion (answers [response])) (motion s) /\
    pir_state_temperature (pir_poll address token response s) =
      List.last (map pir_temperature (answers [response]))
        (pir_state_temperature s) /\
    light (pir_poll address token response s) =
      List.last
        (map (fun r => Some (default zero (pir_light r))) (answers [response]))
        (light s).
Proof.
  unfold pir_poll, answers. destruct response as [report|]; simpl.
  - destruct (Bool.eqb (motion s) (pir_motion report)) eqn:E; simpl;
      eexists; (split; [rewrite <- !app_assoc; reflexivity|]); simpl;
      repeat split.
    apply Bool.eqb_prop in E. now rewrite E.
  - eexists. split; [rewrite <- !app_assoc; reflexivity|]. simpl.
    repeat split.
Qed.

Lemma changes_app (current : bool) (xs ys : list bool) :
  changes current (xs ++ ys) =
    (changes current xs ++ changes (List.last xs current) ys)%list.
Proof.
  revert current. induction xs as [|x xs IH]; intros current; [reflexivity|].
  rewrite (last_cons_default x current xs).
  change ((x :: xs) ++ ys)%list with (x :: (xs ++ ys))%list. simpl.
  destruct (Bool.eqb current x) eqn:E.
  - apply Bool.eqb_prop in E. subst x. apply IH.
  - rewrite IH. reflexivity.
Qed.

Lemma last_app_default {X} (xs ys : list X) (d : X) :
  List.last (xs ++ ys) d = List.last ys (List.last xs d).
Proof.
  revert d. induction xs as [|x xs IH]; intros d; [reflexivity|].
  change ((x :: xs) ++ ys)%list with (x :: (xs ++ ys))%list.
  rewrite !last_cons_default. apply IH.
Qed.

Lemma pir_polls_run address token responses :
  forall s : PIRAccessory,
  exists added,
    pir_events (pir_polls address token responses s)
    = (pir_events s ++ added)%list /\
    pushed MotionDetected added =
      map VBool (changes (motion s) (map pir_motion (answers responses))) /\
    pushed CurrentTemperature added =
      map (fun r => VNumber (pir_temperature r)) (answers responses) /\
    pushed CurrentAmbientLightLevel added =
      map (fun r => VNumber (default zero (pir_light r)))
        (answers responses) /\
    answered added = [] /\
    motion (pir_polls address token responses s) =
      List.last (map pir_motion (answers responses)) (motion s) /\
    pir_state_temperature (pir_polls address token responses s) =
      List.last (map pir_temperature (answers responses))
        (pir_state_temperature s) /\
    light (pir_polls address token responses s) =
      List.last
        (map (fun r => Some (default zero (pir_light r))) (answers responses))
        (light s).
Proof.
  induction responses as [|response rest IH]; intros s.
  - exists []. simpl. rewrite app_nil_r. repeat split.
  - cbn [pir_polls].
    destruct (pir_poll_step address token response s)
      as (a1 & He1 & Hm1 & Ht1 & Hl1 & Ha1 & Sm1 & St1 & Sl1).
    destruct (IH (pir_poll address token response s))
      as (a2 & He2 & Hm2 & Ht2 & Hl2 & Ha2 & Sm2 & St2 & Sl2).
    exists (a1 ++ a2)%list.
    rewrite He2, He1, Sm2, St2, Sl2, Sm1, St1, Sl1.
    rewrite !pushed_app, answered_app, Hm1, Ht1, Hl1, Ha1, Hm2, Ht2, Hl2, Ha2.
    rewrite Sm1, (answers_cons response rest), !map_app.
    rewrite changes_app, !last_app_default, <- app_assoc.
    repeat split. now rewrite map_app.
Qed.

(** X21. The motion poller reports changes only.  Through any sequence of
    ticks, from any state, a [MotionDetected] update is pushed exactly for
    the reports whose motion flag differs from the one the handler held,
    so no two updates in a row carry the same value and the first differs
    from the flag held at the start; ticks that get no answer push nothing.
    The flag held at the end is that of the last report. *)
Theorem pir_motion_pushed_on_change address token responses
    (s : PIRAccessory) :
  let s' := pir_polls address token responses s in
  let flags := map pir_motion (answers responses) in
  exists added,
    pir_events s' = (pir_events s ++ added)%list /\
    pushed MotionDetected added = map VBool (changes (motion s) flags) /\
    alternating (motion s :: changes (motion s) flags) /\
    motion s' = List.last flags (motion s).
Proof.
  intros s' flags. subst s' flags.
  destruct (pir_polls_run address token responses s)
    as (added & He & Hm & _ & _ & _ & Sm & _).
  exists added. repeat split; auto using alternating_changes.
Qed.

(** X22. Temperature and light are pushed at every tick that gets a
    report, changed or not, the light as zero when the report has none;
    a tick that gets no answer pushes nothing and leaves motion,
    temperature and light as they were.  No tick calls a callback. *)
Theorem pir_readings_pushed_every_report address token responses
    (s : PIRAccessory) :
  let s' := pir_polls address token responses s in
  (exists added,
      pir_events s' = (pir_events s ++ added)%list /\
      pushed CurrentTemperature added =
        map (fun r => VNumber (pir_temperature r)) (answers responses) /\
      pushed CurrentAmbientLightLevel added =
        map (fun r => VNumber (default zero (pir_light r)))
          (answers responses) /\
      answered added = []) /\
  pir_state_temperature s' =
    List.last (map pir_temperature (answers responses))
      (pir_state_temperature s) /\
  (answers responses = [] ->
   motion s' = motion s /\
   pir_state_temperature s' = pir_state_temperature s /\
   light s' = light s).
Proof.
  intros s'. subst s'.
  destruct (pir_polls_run address token responses s)
    as (added & He & _ & Ht & Hl & Ha & Sm & St & Sl).
  split; [exists added; auto|]. split; [exact St|].
  intros Hnone. rewrite Sm, St, Sl, Hnone. repeat split.
Qed.

(** X23. The fallback of [getLightLevel] is never used: from the
    construction of the handler through any sequence of ticks the state
    holds a light level, zero at first and afterwards the level of the last
    report (zero when that report had none), and [getLightLevel] calls back
    with exactly that level. *)
Theorem getLightLevel_never_falls_back address token responses :
  let s := pir_polls address token responses new_MyStromPIRAccessory in
  let level :=
    List.last (map (fun r => default zero (pir_light r)) (answers responses))
      zero in
  light s = Some level /\
  getLightLevel s =
    pir_emit
      [FromPlatform (Log Debug "Get Characteristic Ambient Light Level ->");
       Callback (Some (VNumber level))] s.
Proof.
  intros s level. subst s level.
  destruct (pir_polls_run address token responses new_MyStromPIRAccessory)
    as (_ & _ & _ & _ & _ & _ & _ & _ & Sl).
  assert (Hl : light (pir_polls address token responses
                        new_MyStromPIRAccessory) =
               Some (List.last
                       (map (fun r => default zero (pir_light r))
                          (answers responses)) zero)).
  { rewrite Sl. simpl. generalize (answers responses). intros rs.
    generalize zero at 2 4. induction rs as [|r rs IH]; intros z;
      [reflexivity|].
    cbn [map]. rewrite !last_cons_default. apply IH. }
  split; [exact Hl|]. unfold getLightLevel. rewrite Hl. reflexivity.
Qed.

End PIRProperties.

Lemma pir_readings_pushed_every_report_witness :
  let s := @new_MyStromPIRAccessory Z_numbers in
  let responses : list (option (@MyStromPIRReport Z_numbers)) :=
    [None; None] in
  let s' := pir_polls "192.168.1.40" None responses s in
  (exists added,
      pir_events s' = (pir_events s ++ added)%list /\
      pushed CurrentTemperature added = [] /\
      pushed CurrentAmbientLightLevel added = [] /\
      answered added = []) /\
  pir_state_temperature s' = 0 /\
  (motion s' = motion s /\
   pir_state_temperature s' = pir_state_temperature s /\
   light s' = light s).
Proof.
  intros s responses s'.
  pose proof (@pir_readings_pushed_every_report Z_numbers "192.168.1.40"
                None responses s) as (Hpush & Htemp & Hkeep).
  split; [exact Hpush|]. split; [exact Htemp|].
  apply Hkeep. reflexivity.
Defined.

End AccessoryProperties.
